(** * The Slack assistant: agent turn, tools, inbound adapters, side channels

    A shallow embedding of the TypeScript sources.  Module-level variables
    ([history], [vectorStore], [process.env]) and the outside world (the hosted
    model, the Slack client, the mail and HTTP transports) are threaded as
    explicit state; an [async] function becomes a state-passing function whose
    result tells whether its promise was fulfilled or rejected. *)

From Stdlib Require Import ZArith String Ascii List Floats Uint63 Lia.
From stdpp Require Import base option list strings gmap pretty.
Import ListNotations.

(** ** The host language *)

Module Js.

(** A thrown [Error] object: its [name] and its [message]. *)
Record Error := mkError { err_name : string; err_message : string }.

Definition TypeError (msg : string) : Error := mkError "TypeError" msg.
Definition SyntaxError (msg : string) : Error := mkError "SyntaxError" msg.
Definition ReferenceError (msg : string) : Error := mkError "ReferenceError" msg.
(** [new Error(msg)] *)
Definition newError (msg : string) : Error := mkError "Error" msg.

(** How a call ends: it returns (an awaited promise is fulfilled) or it
    throws (the promise is rejected). *)
Inductive Completion (A : Type) : Type :=
| Return (a : A)
| Throw (e : Error).
Arguments Return {A} a.
Arguments Throw {A} e.

(** How code handed to the host to run ends: like a call, or not at all (it
    loops for ever, or it ends the process). *)
Inductive Run (A : Type) : Type :=
| Ends (c : Completion A)
| Never.
Arguments Ends {A} c.
Arguments Never {A}.

Definition is_return {A} (c : Completion A) : bool :=
  match c with Return _ => true | Throw _ => false end.

(** Code that reads and writes a store [S].  What was written before a
    throw stays written. *)
Definition Async (S A : Type) : Type := S -> Completion A * S.

Definition ret {S A} (a : A) : Async S A := fun s => (Return a, s).
Definition throw {S A} (e : Error) : Async S A := fun s => (Throw e, s).
Definition bind {S A B} (c : Async S A) (k : A -> Async S B) : Async S B :=
  fun s => match c s with
           | (Return a, s') => k a s'
           | (Throw e, s') => (Throw e, s')
           end.
(** [try { c } catch (e) { h e }] *)
Definition try_catch {S A} (c : Async S A) (h : Error -> Async S A) : Async S A :=
  fun s => match c s with
           | (Return a, s') => (Return a, s')
           | (Throw e, s') => h e s'
           end.
Definition gets {S A} (f : S -> A) : Async S A := fun s => (Return (f s), s).
Definition modify {S} (f : S -> S) : Async S unit := fun s => (Return tt, f s).
(** a call that ends as [c] and touches nothing *)
Definition settle {S A} (c : Completion A) : Async S A := fun s => (c, s).
(** run code written for a part [T] of the store [S] *)
Definition zoom {S T A} (get : S -> T) (set : T -> S -> S) (c : Async T A) : Async S A :=
  fun s => let (r, t) := c (get s) in (r, set t s).

Declare Scope async_scope.
Delimit Scope async_scope with async.
Notation "x <- c ;; k" := (bind c (fun x => k))
  (at level 100, c at next level, right associativity) : async_scope.
Notation "c ;;; k" := (bind c (fun _ => k))
  (at level 100, right associativity) : async_scope.

(** [!x] for a value that is a string or [undefined]: the empty string and
    [undefined] are falsy. *)
Definition falsy (x : option string) : bool :=
  match x with
  | None => true
  | Some s => bool_decide (s = "")
  end.

(** The line break and the double quote, as one-character texts. *)
Definition nl : string := String "010" EmptyString.
Definition dquote : string := String "034" EmptyString.

End Js.

(** ** A fragment of the host's [eval]

    The calculator hands its argument to [eval].  The fragment below decides
    what [eval] does for scripts made of one expression over decimal integer
    literals, [+ - * /], parentheses, the comma, and the names [Infinity],
    [NaN], [undefined], [Math], [Math.abs] and [Symbol], and for the empty
    loop [while(true){}].  Numbers are IEEE 754 doubles.  The fragment tells
    the value of a script, the class of the error it throws (the message of
    an error is the host's), or that it never ends; every function answers
    [None] for what lies outside the fragment. *)

Module Ecma.
Import Js.

Inductive Value :=
| VUndefined
| VNumber (x : float)
| VSymbol
| VObject (class : string)
| VFunction (fname : string).

(** *** Tokens *)

Inductive Punct :=
  Plus | Minus | Star | Slash | Dot | LParen | RParen | Comma | LBrace | RBrace.

Inductive Token :=
| TNum (n : Z)
| TIdent (x : string)
| TWord (x : string)
| TPunct (p : Punct).

Definition code (c : ascii) : N := N_of_ascii c.

Definition is_digit (c : ascii) : bool := (48 <=? code c)%N && (code c <=? 57)%N.
Definition digit_value (c : ascii) : Z := Z.of_N (code c) - 48.
Definition is_ident_start (c : ascii) : bool :=
  ((65 <=? code c)%N && (code c <=? 90)%N)
  || ((97 <=? code c)%N && (code c <=? 122)%N)
  || (code c =? 95)%N || (code c =? 36)%N.
Definition is_ident_part (c : ascii) : bool := is_ident_start c || is_digit c.
(** a byte of a character beyond ASCII, which may continue a name *)
Definition is_beyond_ascii (c : ascii) : bool := (128 <=? code c)%N.
(** space and tab; line terminators are left outside the fragment *)
Definition is_blank (c : ascii) : bool := (code c =? 32)%N || (code c =? 9)%N.

Definition punct_of (c : ascii) : option Punct :=
  match code c with
  | 43%N => Some Plus
  | 45%N => Some Minus
  | 42%N => Some Star
  | 47%N => Some Slash
  | 46%N => Some Dot
  | 40%N => Some LParen
  | 41%N => Some RParen
  | 44%N => Some Comma
  | 123%N => Some LBrace
  | 125%N => Some RBrace
  | _ => None
  end.

(** The names the fragment knows; every other name, reserved words
    included, is outside it. *)
Definition known_names : list string :=
  ["Infinity"; "NaN"; "undefined"; "Math"; "Symbol"; "abs"].

(** The two words of the empty loop; they are no names and take no part in
    expressions. *)
Definition statement_words : list string := ["while"; "true"].

(** Integer literals up to 2^53 denote themselves exactly. *)
Definition max_exact : Z := 2 ^ 53.

(** What the scanner is in the middle of. *)
Inductive Scan :=
| Idle
| InNum (n : Z)
| InIdent (x : string)
| AfterPunct (p : Punct).

(** A punctuator followed by [c] would be part of a longer token:
    [++ -- ** // /*], a literal like [.5], or [..]. *)
Definition joins (p : Punct) (c : ascii) : bool :=
  match p with
  | Plus => (code c =? 43)%N
  | Minus => (code c =? 45)%N
  | Star => (code c =? 42)%N
  | Slash => (code c =? 47)%N || (code c =? 42)%N
  | Dot => is_digit c || (code c =? 46)%N
  | _ => false
  end.

(** Close what is being scanned when the next character is [next]
    ([None] at the end of the text). *)
Definition close (st : Scan) (next : option ascii) : option (list Token) :=
  match st with
  | Idle => Some []
  | InNum n =>
      match next with
      | Some c =>
          if is_ident_start c || is_beyond_ascii c || (code c =? 46)%N then None
          else if (n <=? max_exact)%Z then Some [TNum n] else None
      | None => if (n <=? max_exact)%Z then Some [TNum n] else None
      end
  | InIdent x =>
      match next with
      | Some c =>
          if is_beyond_ascii c then None
          else if bool_decide (x ∈ known_names) then Some [TIdent x]
          else if bool_decide (x ∈ statement_words) then Some [TWord x]
          else None
      | None =>
          if bool_decide (x ∈ known_names) then Some [TIdent x]
          else if bool_decide (x ∈ statement_words) then Some [TWord x]
          else None
      end
  | AfterPunct p =>
      match next with
      | Some c => if joins p c then None else Some [TPunct p]
      | None => Some [TPunct p]
      end
  end.

(** Start a token at [c]. *)
Definition open (c : ascii) : option Scan :=
  if is_blank c then Some Idle
  else if is_digit c then Some (InNum (digit_value c))
  else if is_ident_start c then Some (InIdent (String c EmptyString))
  else match punct_of c with
       | Some p => Some (AfterPunct p)
       | None => None
       end.

Fixpoint scan (st : Scan) (cs : list ascii) : option (list Token) :=
  match cs with
  | [] => close st None
  | c :: rest =>
      match st with
      | InNum n =>
          if is_digit c then
            (* no leading zero: 012 is not a decimal literal *)
            if (n =? 0)%Z then None
            else scan (InNum (10 * n + digit_value c)) rest
          else
            done ← close st (Some c);
            st' ← open c;
            more ← scan st' rest;
            Some (done ++ more)
      | InIdent x =>
          if is_ident_part c then scan (InIdent (x +:+ String c EmptyString)) rest
          else
            done ← close st (Some c);
            st' ← open c;
            more ← scan st' rest;
            Some (done ++ more)
      | _ =>
          done ← close st (Some c);
          st' ← open c;
          more ← scan st' rest;
          Some (done ++ more)
      end
  end.

Definition tokens (text : string) : option (list Token) :=
  scan Idle (list_ascii_of_string text).

(** *** Expressions *)

Inductive UnOp := UPlus | UMinus.
Inductive BinOp := Add | Sub | Mul | Div.

#[warnings="-register-all"]
Inductive Expr :=
| ENum (n : Z)
| EIdent (x : string)
| EUnary (op : UnOp) (e : Expr)
| EBinary (op : BinOp) (l r : Expr)
| EMember (e : Expr) (property : string)
| ECall (f : Expr) (args : list Expr)
| EComma (l r : Expr).

(** A parse ends with a tree and the tokens left, with a syntax error, or
    outside the fragment. *)
Inductive Parse (A : Type) :=
| Parsed (a : A) (rest : list Token)
| Malformed
| Outside.
Arguments Parsed {A} a rest.
Arguments Malformed {A}.
Arguments Outside {A}.

Definition parse_bind {A B} (p : Parse A) (k : A -> list Token -> Parse B) : Parse B :=
  match p with
  | Parsed a rest => k a rest
  | Malformed => Malformed
  | Outside => Outside
  end.

(** Recursive descent; [fuel] bounds the depth, and running out of it is
    answered [Outside]. *)
Fixpoint parse_expression (fuel : nat) (ts : list Token) : Parse Expr :=
  match fuel with
  | O => Outside
  | S fuel =>
      parse_bind (parse_additive fuel ts) (fun l rest =>
        match rest with
        | TPunct Comma :: rest' =>
            parse_bind (parse_expression fuel rest') (fun r rest'' =>
              Parsed (EComma l r) rest'')
        | _ => Parsed l rest
        end)
  end

with parse_additive (fuel : nat) (ts : list Token) : Parse Expr :=
  match fuel with
  | O => Outside
  | S fuel =>
      parse_bind (parse_multiplicative fuel ts) (fun l rest =>
        parse_additive_more fuel l rest)
  end

with parse_additive_more (fuel : nat) (l : Expr) (ts : list Token) : Parse Expr :=
  match fuel with
  | O => Outside
  | S fuel =>
      match ts with
      | TPunct Plus :: rest =>
          parse_bind (parse_multiplicative fuel rest) (fun r rest' =>
            parse_additive_more fuel (EBinary Add l r) rest')
      | TPunct Minus :: rest =>
          parse_bind (parse_multiplicative fuel rest) (fun r rest' =>
            parse_additive_more fuel (EBinary Sub l r) rest')
      | _ => Parsed l ts
      end
  end

with parse_multiplicative (fuel : nat) (ts : list Token) : Parse Expr :=
  match fuel with
  | O => Outside
  | S fuel =>
      parse_bind (parse_unary fuel ts) (fun l rest =>
        parse_multiplicative_more fuel l rest)
  end

with parse_multiplicative_more (fuel : nat) (l : Expr) (ts : list Token) : Parse Expr :=
  match fuel with
  | O => Outside
  | S fuel =>
      match ts with
      | TPunct Star :: rest =>
          parse_bind (parse_unary fuel rest) (fun r rest' =>
            parse_multiplicative_more fuel (EBinary Mul l r) rest')
      | TPunct Slash :: rest =>
          parse_bind (parse_unary fuel rest) (fun r rest' =>
            parse_multiplicative_more fuel (EBinary Div l r) rest')
      | _ => Parsed l ts
      end
  end

with parse_unary (fuel : nat) (ts : list Token) : Parse Expr :=
  match fuel with
  | O => Outside
  | S fuel =>
      match ts with
      | TPunct Plus :: rest =>
          parse_bind (parse_unary fuel rest) (fun e rest' => Parsed (EUnary UPlus e) rest')
      | TPunct Minus :: rest =>
          parse_bind (parse_unary fuel rest) (fun e rest' => Parsed (EUnary UMinus e) rest')
      | _ =>
          parse_bind (parse_primary fuel ts) (fun e rest => parse_postfix fuel e rest)
      end
  end

with parse_primary (fuel : nat) (ts : list Token) : Parse Expr :=
  match fuel with
  | O => Outside
  | S fuel =>
      match ts with
      | TNum n :: rest => Parsed (ENum n) rest
      | TIdent x :: rest => Parsed (EIdent x) rest
      | TPunct LParen :: rest =>
          parse_bind (parse_expression fuel rest) (fun e rest' =>
            match rest' with
            | TPunct RParen :: rest'' => Parsed e rest''
            | _ => Malformed
            end)
      (* a slash where an operand is due starts a regular expression *)
      | TPunct Slash :: _ => Outside
      | _ => Malformed
      end
  end

with parse_postfix (fuel : nat) (e : Expr) (ts : list Token) : Parse Expr :=
  match fuel with
  | O => Outside
  | S fuel =>
      match ts with
      | TPunct Dot :: TIdent p :: rest => parse_postfix fuel (EMember e p) rest
      | TPunct Dot :: _ => Malformed
      | TPunct LParen :: rest =>
          parse_bind (parse_arguments fuel rest) (fun args rest' =>
            parse_postfix fuel (ECall e args) rest')
      | _ => Parsed e ts
      end
  end

(** the arguments after an opening parenthesis, up to the closing one; a
    comma may trail the last argument *)
with parse_arguments (fuel : nat) (ts : list Token) : Parse (list Expr) :=
  match fuel with
  | O => Outside
  | S fuel =>
      match ts with
      | TPunct RParen :: rest => Parsed [] rest
      | _ =>
          parse_bind (parse_additive fuel ts) (fun a rest =>
            match rest with
            | TPunct RParen :: rest' => Parsed [a] rest'
            | TPunct Comma :: rest' =>
                parse_bind (parse_arguments fuel rest') (fun more rest'' =>
                  Parsed (a :: more) rest'')
            | _ => Malformed
            end)
      end
  end.

(** A script: nothing at all, or one expression and nothing after it. *)
Inductive Script :=
| Empty
| Single (e : Expr).

Definition parse_script (ts : list Token) : Parse Script :=
  match ts with
  | [] => Parsed Empty []
  | _ =>
      parse_bind (parse_expression (8 * length ts + 8) ts) (fun e rest =>
        match rest with
        | [] => Parsed (Single e) []
        | TPunct Slash :: _ => Outside
        | _ => Malformed
        end)
  end.

(** Tokens that no expression of the fragment contains. *)
Definition beyond_expressions (t : Token) : bool :=
  match t with
  | TWord _ | TPunct LBrace | TPunct RBrace => true
  | _ => false
  end.

(** The script of a token list, as far as the fragment goes. *)
Definition script (ts : list Token) : Parse Script :=
  if existsb beyond_expressions ts then Outside else parse_script ts.

(** [while(true){}], however it is spaced. *)
Definition is_endless_loop (ts : list Token) : bool :=
  match ts with
  | [TWord w; TPunct LParen; TWord c; TPunct RParen; TPunct LBrace; TPunct RBrace] =>
      bool_decide (w = "while") && bool_decide (c = "true")
  | _ => false
  end.

(** *** Evaluation *)

(** The classes of the errors the fragment meets. *)
Inductive ErrorKind := SyntaxErr | TypeErr.

Definition kind_name (k : ErrorKind) : string :=
  match k with
  | SyntaxErr => "SyntaxError"
  | TypeErr => "TypeError"
  end.

(** What the language says of a script or of a conversion: its value, the
    class of the error it throws, or that it never ends. *)
Inductive Result (A : Type) : Type :=
| Gives (a : A)
| Throws (k : ErrorKind)
| Endless.
Arguments Gives {A} a.
Arguments Throws {A} k.
Arguments Endless {A}.

(** Thread a step that may leave the fragment or throw. *)
Definition and_then {A B} (c : option (Result A))
    (k : A -> option (Result B)) : option (Result B) :=
  match c with
  | None => None
  | Some (Gives a) => k a
  | Some (Throws e) => Some (Throws e)
  | Some Endless => Some Endless
  end.

Definition number_of_literal (n : Z) : float := PrimFloat.of_uint63 (Uint63.of_Z n).

(** The global names, none of which is shadowed where [eval] is called. *)
Definition global (x : string) : option (Result Value) :=
  if bool_decide (x = "Infinity") then Some (Gives (VNumber infinity))
  else if bool_decide (x = "NaN") then Some (Gives (VNumber nan))
  else if bool_decide (x = "undefined") then Some (Gives VUndefined)
  else if bool_decide (x = "Math") then Some (Gives (VObject "Math"))
  else if bool_decide (x = "Symbol") then Some (Gives (VFunction "Symbol"))
  else None.

(** [ToNumber]: a symbol throws a [TypeError], [undefined] is [NaN]. *)
Definition ToNumber (v : Value) : option (Result float) :=
  match v with
  | VNumber x => Some (Gives x)
  | VUndefined => Some (Gives nan)
  | VSymbol => Some (Throws TypeErr)
  | _ => None
  end.

Definition apply_unary (op : UnOp) (v : Value) : option (Result Value) :=
  and_then (ToNumber v) (fun x =>
    Some (Gives (VNumber match op with
                         | UPlus => x
                         | UMinus => PrimFloat.opp x
                         end))).

(** The four operators on numbers and [undefined]; [+] on anything else
    may concatenate strings and is left outside. *)
Definition apply_binary (op : BinOp) (a b : Value) : option (Result Value) :=
  match a, b with
  | (VNumber _ | VUndefined), (VNumber _ | VUndefined) =>
      and_then (ToNumber a) (fun x =>
      and_then (ToNumber b) (fun y =>
        Some (Gives (VNumber match op with
                             | Add => PrimFloat.add x y
                             | Sub => PrimFloat.sub x y
                             | Mul => PrimFloat.mul x y
                             | Div => PrimFloat.div x y
                             end))))
  | _, _ => None
  end.

(** Reading a property of [undefined] throws a [TypeError]. *)
Definition get_property (v : Value) (p : string) : option (Result Value) :=
  match v with
  | VUndefined => Some (Throws TypeErr)
  | VObject class =>
      if bool_decide (class = "Math") && bool_decide (p = "abs")
      then Some (Gives (VFunction "Math.abs"))
      else None
  | _ => None
  end.

(** Calling [f] once its arguments are evaluated; calling what is no
    function throws a [TypeError], and so does describing a symbol by a
    symbol. *)
Definition call (f : Value) (args : list Value) : option (Result Value) :=
  match f with
  | VFunction fname =>
      if bool_decide (fname = "Math.abs") then
        and_then (ToNumber (default VUndefined (head args))) (fun x =>
          Some (Gives (VNumber (PrimFloat.abs x))))
      else if bool_decide (fname = "Symbol") then
        match head args with
        | Some VSymbol => Some (Throws TypeErr)
        | _ => Some (Gives VSymbol)
        end
      else None
  | _ => Some (Throws TypeErr)
  end.

Fixpoint eval_expr (e : Expr) : option (Result Value) :=
  match e with
  | ENum n => Some (Gives (VNumber (number_of_literal n)))
  | EIdent x => global x
  | EUnary op e1 => and_then (eval_expr e1) (apply_unary op)
  | EBinary op l r =>
      and_then (eval_expr l) (fun a =>
      and_then (eval_expr r) (fun b => apply_binary op a b))
  | EMember e1 p => and_then (eval_expr e1) (fun v => get_property v p)
  | ECall f args =>
      and_then (eval_expr f) (fun fv =>
      and_then
        ((fix eval_args (es : list Expr) : option (Result (list Value)) :=
            match es with
            | [] => Some (Gives [])
            | a :: rest =>
                and_then (eval_expr a) (fun v =>
                and_then (eval_args rest) (fun vs => Some (Gives (v :: vs))))
            end) args)
        (fun vs => call fv vs))
  | EComma l r => and_then (eval_expr l) (fun _ => eval_expr r)
  end.

(** [eval(text)] on the fragment: a text that does not parse throws a
    [SyntaxError], the empty script gives [undefined], the empty loop never
    ends. *)
Definition eval (text : string) : option (Result Value) :=
  match tokens text with
  | None => None
  | Some ts =>
      if is_endless_loop ts then Some Endless
      else
        match script ts with
        | Outside => None
        | Malformed => Some (Throws SyntaxErr)
        | Parsed Empty _ => Some (Gives VUndefined)
        | Parsed (Single e) _ => eval_expr e
        end
  end.

(** *** Conversion to text, as a template literal does it *)

(** The magnitude of a finite double when it is a whole number. *)
Definition whole_magnitude (x : float) : option Z :=
  match Prim2SF x with
  | S754_zero _ => Some 0%Z
  | S754_finite _ m e =>
      if (0 <=? e)%Z then Some (Z.pos m * 2 ^ e)%Z
      else if (Z.pos m mod 2 ^ (- e) =? 0)%Z then Some (Z.pos m / 2 ^ (- e))%Z
      else None
  | _ => None
  end.

(** [Number::toString] for [NaN], the infinities, the zeros and the whole
    numbers below 2^53, whose shortest digits are their decimal digits.  For
    the other numbers the language fixes the number of digits but not always
    the last one; they are left open. *)
Definition Number_toString (x : float) : option string :=
  if PrimFloat.is_nan x then Some "NaN"
  else if PrimFloat.is_infinity x then
    Some (if PrimFloat.ltb x 0 then "-Infinity" else "Infinity")
  else
    match whole_magnitude x with
    | Some n =>
        if (n =? 0)%Z then Some "0"
        else if (n <? max_exact)%Z then
          Some ((if PrimFloat.ltb x 0 then "-" else "") +:+ pretty n)
        else None
    | None => None
    end.

(** A symbol cannot be turned into text: a [TypeError]. *)
Definition ToString (v : Value) : option (Result string) :=
  match v with
  | VUndefined => Some (Gives "undefined")
  | VNumber x => Gives <$> Number_toString x
  | VSymbol => Some (Throws TypeErr)
  | VObject class =>
      if bool_decide (class = "Math") then Some (Gives "[object Math]") else None
  | VFunction _ => None
  end.

(** *** Hosts *)

(** Does the text mention a name? *)
Definition mentions_name (text : string) : bool :=
  match tokens text with
  | Some ts => existsb (fun t => match t with TIdent _ => true | _ => false end) ts
  | None => false
  end.

(** Values that are not objects. *)
Definition primitive (v : Value) : bool :=
  match v with
  | VUndefined | VNumber _ | VSymbol => true
  | VObject _ | VFunction _ => false
  end.

(** What a host did agrees with what the fragment says.  A script of the
    fragment touches nothing of the store. *)
Definition agrees {S A : Type} (said : option (Result A)) (did : Run A * S) (s : S)
  : Prop :=
  match said with
  | None => True
  | Some (Gives a) => did = (Ends (Return a), s)
  | Some (Throws k) =>
      exists message, did = (Ends (Throw (mkError (kind_name k) message)), s)
  | Some Endless => did.1 = Never
  end.

(** A host agrees with the fragment wherever the fragment answers, and it
    turns every number into some text.  Earlier scripts may have replaced
    the built-in objects the fragment names ([Math], [Math.abs], [Symbol],
    the conversion of objects to text); [intact] tells the stores in which
    they are as the language defines them.  A script that mentions no name,
    and the conversion of a value that is no object, do not look at them: there
    the host is held to the fragment in every store. *)
Definition conforms {S : Type} (intact : S -> Prop)
    (host_eval : string -> S -> Run Value * S)
    (host_ToString : Value -> S -> Run string * S) : Prop :=
  (forall text s, intact s \/ mentions_name text = false ->
     agrees (eval text) (host_eval text s) s)
  /\ (forall v s, intact s \/ primitive v = true ->
        agrees (ToString v) (host_ToString v s) s)
  /\ (forall x s, exists text, host_ToString (VNumber x) s = (Ends (Return text), s)).

(** The digits of a finite double written out in full. *)
Fixpoint strip_zeros (digits : list ascii) : list ascii :=
  match digits with
  | [] => []
  | d :: rest =>
      match strip_zeros rest with
      | [] => if (code d =? 48)%N then [] else [d]
      | kept => d :: kept
      end
  end.

Definition exact_decimal (x : float) : string :=
  match Prim2SF x with
  | S754_finite negative m e =>
      (if negative then "-" else "") +:+
      (if (0 <=? e)%Z then pretty (Z.pos m * 2 ^ e)%Z
       else
         let k := (- e)%Z in
         let whole := (Z.pos m / 2 ^ k)%Z in
         let behind := ((Z.pos m mod 2 ^ k) * 5 ^ k)%Z in
         let digits := list_ascii_of_string (pretty behind) in
         let padded := replicate (Z.to_nat k - length digits) "0"%char ++ digits in
         match strip_zeros padded with
         | [] => pretty whole
         | kept => pretty whole +:+ "." +:+ string_of_list_ascii kept
         end)
  | _ => "0"
  end.

(** One conforming host, which keeps no store that scripts could change.
    What it does outside the fragment is a choice of its own: it refuses the scripts the fragment leaves open, and it writes
    the numbers the fragment leaves open with all their digits (more digits
    than an engine prints where fewer tell the number apart). *)
Definition sample_message (k : ErrorKind) : string :=
  match k with
  | SyntaxErr => "Unexpected token"
  | TypeErr => "not a function or not convertible"
  end.

Definition sample_run {A} (said : option (Result A)) (otherwise : Run A) : Run A :=
  match said with
  | Some (Gives a) => Ends (Return a)
  | Some (Throws k) => Ends (Throw (mkError (kind_name k) (sample_message k)))
  | Some Endless => Never
  | None => otherwise
  end.

Definition sample_eval {S : Type} (text : string) (s : S) : Run Value * S :=
  (sample_run (eval text) (Ends (Throw (SyntaxError "not modelled"))), s).

Definition sample_ToString {S : Type} (v : Value) (s : S) : Run string * S :=
  (sample_run (ToString v)
     match v with
     | VNumber x => Ends (Return (exact_decimal x))
     | _ => Ends (Throw (TypeError "not modelled"))
     end, s).

(** Does the text call something? *)
Fixpoint has_call (e : Expr) : bool :=
  match e with
  | ENum _ | EIdent _ => false
  | EUnary _ e1 => has_call e1
  | EBinary _ l r => has_call l || has_call r
  | EMember e1 _ => has_call e1
  | ECall _ _ => true
  | EComma l r => has_call l || has_call r
  end.

Definition calls_function (text : string) : bool :=
  match tokens text with
  | Some ts =>
      match script ts with
      | Parsed (Single e) _ => has_call e
      | _ => false
      end
  | None => false
  end.


End Ecma.
(** ** The stateful agent (the file that keeps [history]) *)

Module Agent.
Import Js.
Local Open Scope async_scope.

(** One part of a content that is an array: its [type] tag and, for a text
    part, its text. *)
Record ContentPart := mkPart {
  part_type : string;
  part_text : option string }.

(** The content of a message: a plain text, or an array of parts (as in an
    answer that carries tool calls). *)
Inductive MessageContent :=
| Text (s : string)
| Parts (parts : list ContentPart).

(** [HumanMessage | AIMessage], each built from its content.  A human turn is
    built from the text the caller gives, an assistant turn from whatever
    content the model's answer has. *)
Inductive Message :=
| HumanMessage (text : string)
| AIMessage (reply : MessageContent).

(** A tool call requested by the model inside its answer. *)
Record ToolCall := mkToolCall {
  tc_name : string;
  tc_args : list (string * string);
  tc_id : string }.

(** What [invoke] resolves to: [res.content] and [res.tool_calls]. *)
Record AIMessageChunk := mkChunk {
  content : MessageContent;
  tool_calls : list ToolCall }.

(** [z.string()] is the only field type the three tools use. *)
Inductive ZodType := ZString.

(** The declaration part of [tool(handler, {name, description, schema})]:
    what a model is told when the tool is bound to it. *)
Record StructuredTool := mkTool {
  name : string;
  description : string;
  schema : list (string * ZodType) }.

(** One request to the completion endpoint: the model asked, the tools
    offered with it, and the messages sent. *)
Record Request := mkRequest {
  req_model : string;
  req_tools : list StructuredTool;
  req_messages : list Message }.

(** The hosted model is opaque: its outcome may depend on the request and on
    how many requests came before. *)
Definition Backend : Type := nat -> Request -> Completion AIMessageChunk.

(** A chat model object: its options and the tools bound to it. *)
Record ChatGoogleGenerativeAI := mkModel {
  apiKey : option string;
  model_id : string;
  bound_tools : list StructuredTool }.

(** [m.bindTools(ts)] returns a new runnable; [m] itself is unchanged. *)
Definition bindTools (m : ChatGoogleGenerativeAI) (ts : list StructuredTool)
  : ChatGoogleGenerativeAI :=
  {| apiKey := apiKey m; model_id := model_id m; bound_tools := ts |}.

(** The module-level [history] array, and the requests that have left the
    process so far (oldest first). *)
Record World := mkWorld {
  history : list Message;
  requests : list Request }.

(** [const history = []] at load time. *)
Definition init : World := {| history := []; requests := [] |}.

(** [history.push(m)] *)
Definition push (m : Message) : Async World unit :=
  modify (fun w => {| history := history w ++ [m]; requests := requests w |}).

(** ** Tool handlers *)

Section Tools.
(** The host's [eval], which the handler calls directly, and the string
    conversion a template literal applies, over the host's values [V].  Both
    run code of the host language: it may read and write whatever the
    handler's scope reaches (the store [S]), and it may not return. *)
Context {S V : Type}.
Variable host_eval : string -> S -> Run V * S.
Variable host_ToString : V -> S -> Run string * S.

(** The handler of [calculator]:
    [try { const result = eval(expression); return `Result: ${result}` }
     catch { return "Invalid math expression" }] *)
Definition calculator_func (expression : string) (s : S) : Run string * S :=
  match host_eval expression s with
  | (Ends (Return result), s1) =>
      match host_ToString result s1 with
      | (Ends (Return text), s2) => (Ends (Return ("Result: " +:+ text)), s2)
      | (Ends (Throw _), s2) => (Ends (Return "Invalid math expression"), s2)
      | (Never, s2) => (Never, s2)
      end
  | (Ends (Throw _), s1) => (Ends (Return "Invalid math expression"), s1)
  | (Never, s1) => (Never, s1)
  end.

(** The handler of [time]; [now] is [new Date().toLocaleString()]. *)
Definition timeTool_func (now : string) : Completion string :=
  Return ("Current time: " +:+ now).

(** The handler of [echo]. *)
Definition echoTool_func (text : string) : Completion string :=
  Return ("Echo: " +:+ text).
End Tools.

Definition calculator : StructuredTool :=
  {| name := "calculator";
     description := "Solve math expressions like 25*17 or 10/2+5";
     schema := [("expression", ZString)] |}.

Definition timeTool : StructuredTool :=
  {| name := "time";
     description := "  Get current Date and time";
     schema := [] |}.

Definition echoTool : StructuredTool :=
  {| name := "echo";
     description := "Repeat the given text";
     schema := [("text", ZString)] |}.

(** register tools *)
Definition tools : list StructuredTool := [calculator; timeTool; echoTool].

Section Agent.
(** [process.env] and the hosted model. *)
Variable env : gmap string string.
Variable backend : Backend.

Definition model : ChatGoogleGenerativeAI :=
  {| apiKey := env !! "GOOGLE_API_KEY";
     model_id := "gemini-2.5-flash";
     bound_tools := [] |}.

(** bind tools to model *)
Definition llmWithTools : ChatGoogleGenerativeAI := bindTools model tools.

(** [m.invoke(input)]: one request leaves, carrying the receiver's bound
    tools and the messages as they are at the call. *)
Definition invoke (m : ChatGoogleGenerativeAI) (input : list Message)
  : Async World AIMessageChunk :=
  fun w =>
    let req := {| req_model := model_id m;
                  req_tools := bound_tools m;
                  req_messages := input |} in
    (backend (length (requests w)) req,
     {| history := history w; requests := requests w ++ [req] |}).

(** [res.content as string] is a cast the compiler erases: [reply] is the
    content as it is, a text or an array of parts. *)
Definition runAgent (text : string) : Async World MessageContent :=
  (* add user message *)
  push (HumanMessage text) ;;;
  (* call model with full history *)
  h <- gets history ;;
  res <- invoke model h ;;
  let reply := content res in
  (* add AI reply to history *)
  push (AIMessage reply) ;;;
  ret reply.

(** The two synchronous stretches of [runAgent], before and after its
    one [await]. *)
Definition runAgent_until_await (text : string) (w : World)
  : Completion AIMessageChunk * World :=
  (push (HumanMessage text) ;;; h <- gets history ;; invoke model h) w.

Definition runAgent_after_await (res : AIMessageChunk)
  : Async World MessageContent :=
  let reply := content res in
  push (AIMessage reply) ;;; ret reply.

(** Calls made one after the other, each awaited before the next. *)
Fixpoint runAgent_each (texts : list string) (w : World)
  : list (Completion MessageContent) * World :=
  match texts with
  | [] => ([], w)
  | text :: rest =>
      let (r, w1) := runAgent text w in
      let (rs, w2) := runAgent_each rest w1 in
      (r :: rs, w2)
  end.

(** *** Overlapping calls

    The event loop runs one synchronous stretch at a time.  A call that
    reached its [await] waits with the outcome the endpoint will deliver;
    [Arrive] starts a call, [Resume] continues a waiting one. *)
Inductive Tick :=
| Arrive (text : string)
| Resume (call : nat).

Record Loop := mkLoop {
  world : World;
  waiting : gmap nat (Completion AIMessageChunk);
  settled : list (nat * Completion MessageContent);
  started : nat }.

Definition boot (w : World) : Loop :=
  {| world := w; waiting := ∅; settled := []; started := 0 |}.

Definition tick (t : Tick) (l : Loop) : Loop :=
  match t with
  | Arrive text =>
      let (pending, w) := runAgent_until_await text (world l) in
      {| world := w;
         waiting := <[started l := pending]> (waiting l);
         settled := settled l;
         started := S (started l) |}
  | Resume call =>
      match waiting l !! call with
      | None => l
      | Some pending =>
          let (r, w) := bind (settle pending) runAgent_after_await (world l) in
          {| world := w;
             waiting := delete call (waiting l);
             settled := settled l ++ [(call, r)];
             started := started l |}
      end
  end.

Definition ticks (ts : list Tick) (l : Loop) : Loop :=
  fold_left (fun l t => tick t l) ts l.
End Agent.

(** The human turn and the assistant turn of one completed call. *)
Definition turns (text : string) (reply : MessageContent) : list Message :=
  [HumanMessage text; AIMessage reply].

(** What one call leaves in [history], whatever its outcome. *)
Definition trail (text : string) (r : Completion MessageContent) : list Message :=
  HumanMessage text :: match r with
                       | Return reply => [AIMessage reply]
                       | Throw _ => []
                       end.

(** The request [runAgent] sends from a world [w]. *)
Definition request_of (text : string) (w : World) : Request :=
  {| req_model := "gemini-2.5-flash";
     req_tools := [];
     req_messages := history w ++ [HumanMessage text] |}.

Definition is_human (m : Message) : bool :=
  match m with HumanMessage _ => true | AIMessage _ => false end.

Definition is_assistant (m : Message) : bool :=
  match m with HumanMessage _ => false | AIMessage _ => true end.

(** The texts of the calls a schedule starts, in arrival order. *)
Definition arrivals (ts : list Tick) : list string :=
  omap (fun t => match t with Arrive text => Some text | Resume _ => None end) ts.

(** Every request sent so far carried a beginning of the present history. *)
Definition replayed (w : World) : Prop :=
  Forall (fun r => req_messages r `prefix_of` history w) (requests w).

(** The schedule in which every call is resumed before the next arrives;
    [first] numbers the first call. *)
Fixpoint serial (first : nat) (texts : list string) : list Tick :=
  match texts with
  | [] => []
  | text :: rest => Arrive text :: Resume first :: serial (S first) rest
  end.

(** The contents returned by the calls that completed, in completion order. *)
Definition returned (rs : list (nat * Completion MessageContent))
  : list MessageContent :=
  omap (fun r => match r.2 with Return reply => Some reply | Throw _ => None end) rs.

End Agent.

(** ** The stateless agent (single turn, no history) *)

Module AgentStateless.
Import Js.
Local Open Scope async_scope.

(** Requests that have left the process: each is the bare prompt text. *)
Definition World : Type := list string.

Section Agent.
Variable backend : nat -> string -> Completion Agent.AIMessageChunk.

Definition invoke (input : string) : Async World Agent.AIMessageChunk :=
  fun w => (backend (length w) input, w ++ [input]).

Definition runAgent (text : string) : Async World Agent.MessageContent :=
  res <- invoke text ;;
  ret (Agent.content res).

(** Calls made one after the other, each awaited before the next. *)
Fixpoint runAgent_each (texts : list string) (w : World)
  : list (Completion Agent.MessageContent) * World :=
  match texts with
  | [] => ([], w)
  | text :: rest =>
      let (r, w1) := runAgent text w in
      let (rs, w2) := runAgent_each rest w1 in
      (r :: rs, w2)
  end.
End Agent.
End AgentStateless.


(** ** The Slack adapter *)

Module Slack.
Import Js.
Local Open Scope async_scope.

(** The payloads, as far as the handlers read them.  An [app_mention] always
    has its text; a [message] event is read through [any], so its text may be
    missing. *)
Record AppMentionEvent := { mention_text : string }.
Record MessageEvent := { message_text : option string }.

Section Handlers.
(** The store of the module [runAgent] is imported from, and [runAgent]
    with the values [R] it returns. *)
Context {W R : Type}.
Variable runAgent : string -> Async W R.
(** How the Slack client ends the [n]-th call of [say]. *)
Variable post : nat -> R -> Completion unit.

(** The agent's store and what was passed to [say] so far. *)
Record Channel := mkChannel {
  agent : W;
  said : list R }.

Definition say (text : R) : Async Channel unit :=
  fun c => (post (length (said c)) text,
            {| agent := agent c; said := said c ++ [text] |}).

Definition in_agent {A} (c : Async W A) : Async Channel A :=
  zoom agent (fun w ch => {| agent := w; said := said ch |}) c.

(** [app.event("app_mention", ...)] *)
Definition on_app_mention (event : AppMentionEvent) : Async Channel unit :=
  reply <- in_agent (runAgent (mention_text event)) ;;
  say reply.

(** [app.event("message", ...)]; the [console.log] is not modelled. *)
Definition on_message (event : MessageEvent) : Async Channel unit :=
  let text := message_text event in
  if falsy text then ret tt
  else
    reply <- in_agent (runAgent (default "" text)) ;;
    say reply.
End Handlers.
End Slack.

(** ** Document indexing and search *)

Module Rag.
Import Js.
Local Open Scope async_scope.

Record Document := { pageContent : string }.

Record SplitterOptions := { chunkSize : nat; chunkOverlap : nat }.

Record ChromaArgs := { collectionName : string; url : string }.

Section Rag.
(** The collaborators: the file system, the text splitter, and the vector
    store with its handle type [Chroma]. *)
Context {Chroma : Type}.
Variable readFileSync : string -> Completion string.
Variable createDocuments : SplitterOptions -> list string -> list Document.
Variable fromDocuments : list Document -> ChromaArgs -> Completion Chroma.
Variable similaritySearch : Chroma -> string -> nat -> Completion (list Document).

(** [let vectorStore: Chroma;] is declared without a value: [None] until
    [loadDocument] assigns it. *)
Record Store := { vectorStore : option Chroma }.

Definition unloaded : Store := {| vectorStore := None |}.

Definition loadDocument (path : string) : Async Store unit :=
  text <- settle (readFileSync path) ;;
  let splitter := {| chunkSize := 500; chunkOverlap := 100 |} in
  let docs := createDocuments splitter [text] in
  vs <- settle (fromDocuments docs
                  {| collectionName := "docs"; url := "http://localhost:8000" |}) ;;
  modify (fun _ => {| vectorStore := Some vs |}).

Definition searchDocs (query : string) : Async Store string :=
  store <- gets vectorStore ;;
  match store with
  | None => throw (TypeError "Cannot read properties of undefined (reading 'similaritySearch')")
  | Some vs =>
      results <- settle (similaritySearch vs query 3) ;;
      ret (String.concat (String "010" (String "010" EmptyString))
             (map pageContent results))
  end.

(** Loading several files, one call after the other. *)
Fixpoint loadDocument_each (paths : list string) (s : Store)
  : list (Completion unit) * Store :=
  match paths with
  | [] => ([], s)
  | path :: rest =>
      let (r, s1) := loadDocument path s in
      let (rs, s2) := loadDocument_each rest s1 in
      (r :: rs, s2)
  end.
End Rag.
End Rag.

(** ** The LinkedIn tools of the publisher file *)

Module LinkedIn.
Import Js.
Local Open Scope async_scope.

Inductive Visibility := PUBLIC | CONNECTIONS.

Definition visibility_text (v : Visibility) : string :=
  match v with PUBLIC => "PUBLIC" | CONNECTIONS => "CONNECTIONS" end.

(** The body and the headers of the one HTTP call. *)
Record PostData := {
  author : string;
  lifecycleState : string;
  shareCommentary : string;
  shareMediaCategory : string;
  memberNetworkVisibility : string }.

Record Headers := {
  Authorization : string;
  ContentType : string;
  RestliProtocolVersion : string }.

Record HttpCall := { call_url : string; call_data : PostData; call_headers : Headers }.

(** How [axios.post] ends: with [response.data.id] as text, with an error
    that carries a response (status, and its data as JSON text), or with an
    error that carries only a message. *)
Inductive AxiosOutcome :=
| Responded (id : string)
| Refused (status : nat) (data_json : string)
| Failed (message : string).

Section LinkedIn.
Variable env : gmap string string.
Variable axios_post : HttpCall -> AxiosOutcome.

(** The HTTP calls made so far. *)
Definition Net : Type := list HttpCall.

Definition postToLinkedIn (text : string) (visibility : option Visibility)
  : Async Net string :=
  (* default parameter *)
  let visibility := default PUBLIC visibility in
  let accessToken := env !! "LINKEDIN_ACCESS_TOKEN" in
  let personId := env !! "LINKEDIN_PERSON_ID" in
  if falsy accessToken then
    throw (newError "LINKEDIN_ACCESS_TOKEN environment variable is not set")
  else if falsy personId then
    throw (newError "LINKEDIN_PERSON_ID environment variable is not set")
  else
    let personUrn := "urn:li:person:" +:+ default "" personId in
    let call :=
      {| call_url := "https://api.linkedin.com/v2/ugcPosts";
         call_data :=
           {| author := personUrn;
              lifecycleState := "PUBLISHED";
              shareCommentary := text;
              shareMediaCategory := "NONE";
              memberNetworkVisibility := visibility_text visibility |};
         call_headers :=
           {| Authorization := "Bearer " +:+ default "" accessToken;
              ContentType := "application/json";
              RestliProtocolVersion := "2.0.0" |} |} in
    modify (fun net => net ++ [call]) ;;;
    match axios_post call with
    | Responded postId =>
        ret ("✅ LinkedIn post published successfully! Post ID: " +:+ postId
             +:+ String "010" "View it at: https://www.linkedin.com/feed/update/"
             +:+ postId)
    | Refused status data_json =>
        throw (newError ("LinkedIn API error: " +:+ pretty status +:+ " - " +:+ data_json))
    | Failed message =>
        throw (newError ("Failed to post to LinkedIn: " +:+ message))
    end.

(** The message of the error [postToLinkedIn] throws for a missing setting. *)
Definition missing_setting : string :=
  if falsy (env !! "LINKEDIN_ACCESS_TOKEN")
  then "LINKEDIN_ACCESS_TOKEN environment variable is not set"
  else "LINKEDIN_PERSON_ID environment variable is not set".

(** The handler of the tool [post_to_linkedin]. *)
Definition postToLinkedInTool_func (text : string) (visibility : option Visibility)
  : Async Net string :=
  try_catch (result <- postToLinkedIn text visibility ;; ret result)
    (fun error => ret ("❌ Failed to post to LinkedIn: " +:+ err_message error)).

(** *** Post generation *)

(** How the [n]-th call of [postGenerator.invoke] ends: with the content of
    the answer, or with an error. *)
Variable generate : nat -> string -> Completion string.
(** The text a template gives for [Object.prototype[name]], for the names
    every object inherits ([constructor], [toString], ...); [None] for the
    other names. *)
Variable inherited : string -> option string.

(** The prompts sent to the generator and the HTTP calls made so far. *)
Record Studio := mkStudio {
  asked : list string;
  calls : Net }.

Definition postGenerator_invoke (prompt : string) : Async Studio string :=
  fun s => (generate (length (asked s)) prompt,
            {| asked := asked s ++ [prompt]; calls := calls s |}).

Definition in_net {A} (c : Async Net A) : Async Studio A :=
  zoom calls (fun n s => {| asked := asked s; calls := n |}) c.

Definition lengthGuide : list (string * string) :=
  [("short", "Keep it under 150 words, concise and impactful");
   ("medium", "Write 200-300 words, balanced and engaging");
   ("long", "Write 400-500 words, detailed and comprehensive")].

(** [lengthGuide[length] || lengthGuide.medium] *)
Definition guide_for (length : string) : string :=
  match (list_to_map lengthGuide : gmap string string) !! length with
  | Some guide => guide
  | None =>
      match inherited length with
      | Some text => text
      | None => "Write 200-300 words, balanced and engaging"
      end
  end.

Definition prompt_for (topic tone length : string) : string :=
  "Create a professional LinkedIn post about: " +:+ dquote +:+ topic +:+ dquote +:+ nl
  +:+ nl
  +:+ "Requirements:" +:+ nl
  +:+ "- Tone: " +:+ tone +:+ nl
  +:+ "- Length: " +:+ guide_for length +:+ nl
  +:+ "- Include relevant hashtags (3-5 hashtags)" +:+ nl
  +:+ "- Make it engaging and valuable for LinkedIn audience" +:+ nl
  +:+ "- Start with a hook to grab attention" +:+ nl
  +:+ "- End with a call-to-action or question to encourage engagement" +:+ nl
  +:+ "- Format it properly with line breaks for readability" +:+ nl
  +:+ nl
  +:+ "Post content:".

(** Generate a LinkedIn post using AI based on topic and tone *)
Definition generateLinkedInPost (topic : string) (tone length : option string)
  : Async Studio string :=
  (* default parameters *)
  let tone := default "professional" tone in
  let length := default "medium" length in
  let prompt := prompt_for topic tone length in
  try_catch (response <- postGenerator_invoke prompt ;; ret response)
    (fun error => throw (newError ("Failed to generate post: " +:+ err_message error))).

(** The handler of the tool [generate_linkedin_post]. *)
Definition generateLinkedInPostTool_func (topic : string) (tone length : option string)
  : Async Studio string :=
  try_catch
    (post <- generateLinkedInPost topic tone length ;;
     ret ("Generated LinkedIn post:" +:+ nl +:+ nl +:+ post +:+ nl +:+ nl
          +:+ "---" +:+ nl
          +:+ "Note: This is a preview. Use the post_to_linkedin tool to publish it."))
    (fun error => ret ("❌ Failed to generate post: " +:+ err_message error)).

(** [autoPost] is a boolean or a string. *)
Inductive AutoPost :=
| AutoBool (b : bool)
| AutoText (s : string).

(** [autoPost === true || autoPost === "true"] *)
Definition wants_post (autoPost : option AutoPost) : bool :=
  match autoPost with
  | Some (AutoBool b) => b
  | Some (AutoText s) => bool_decide (s = "true")
  | None => false
  end.

(** The handler of the tool [generate_and_post_linkedin]. *)
Definition generateAndPostLinkedInTool_func (topic : string)
    (tone length : option string) (visibility : option Visibility)
    (autoPost : option AutoPost) : Async Studio string :=
  try_catch
    ((* Generate the post *)
     post <- generateLinkedInPost topic tone length ;;
     if wants_post autoPost then
       (* Post to LinkedIn *)
       result <- in_net (postToLinkedIn post visibility) ;;
       ret (result +:+ nl +:+ nl +:+ "Generated post content:" +:+ nl +:+ post)
     else
       (* Return generated post without posting *)
       ret ("Generated LinkedIn post:" +:+ nl +:+ nl +:+ post +:+ nl +:+ nl
            +:+ "---" +:+ nl
            +:+ "Note: Set autoPost=true to automatically publish this post."))
    (fun error => ret ("❌ Failed to generate/post: " +:+ err_message error)).
End LinkedIn.
End LinkedIn.

(** ** The LinkedIn tools of the second file, which never lets
       [postToLinkedIn] throw *)

Module LinkedInDirect.
Import Js.
Local Open Scope async_scope.

(** [response.status] and [response.data.id] of a fulfilled call;
    [error.response] of a rejected one, or only [error.message]. *)
Inductive AxiosOutcome :=
| Responded (status : nat) (id : option string)
| Refused (status : nat) (message : option string) (statusText : string)
| Failed (message : string).

Section LinkedIn.
Variable env : gmap string string.
Variable axios_post : LinkedIn.HttpCall -> AxiosOutcome.

Definition LINKEDIN_API_BASE : string := "https://api.linkedin.com/v2".

Definition getLinkedInAccessToken : Completion string :=
  let accessToken := env !! "LINKEDIN_ACCESS_TOKEN" in
  if falsy accessToken then
    Throw (newError "LINKEDIN_ACCESS_TOKEN not found in environment variables")
  else Return (default "" accessToken).

Definition getLinkedInPersonId : Completion string :=
  let personId := env !! "LINKEDIN_PERSON_ID" in
  if falsy personId then
    Throw (newError "LINKEDIN_PERSON_ID not found in environment variables. Please set your LinkedIn user ID.")
  else Return (default "" personId).

Definition postToLinkedIn (text : string) (visibility : LinkedIn.Visibility)
  : Async LinkedIn.Net string :=
  try_catch
    (accessToken <- settle getLinkedInAccessToken ;;
     personId <- settle getLinkedInPersonId ;;
     let call :=
       {| LinkedIn.call_url := LINKEDIN_API_BASE +:+ "/ugcPosts";
          LinkedIn.call_data :=
            {| LinkedIn.author := "urn:li:person:" +:+ personId;
               LinkedIn.lifecycleState := "PUBLISHED";
               LinkedIn.shareCommentary := text;
               LinkedIn.shareMediaCategory := "NONE";
               LinkedIn.memberNetworkVisibility := LinkedIn.visibility_text visibility |};
          LinkedIn.call_headers :=
            {| LinkedIn.Authorization := "Bearer " +:+ accessToken;
               LinkedIn.ContentType := "application/json";
               LinkedIn.RestliProtocolVersion := "2.0.0" |} |} in
     modify (fun net => net ++ [call]) ;;;
     match axios_post call with
     | Responded status id =>
         if bool_decide (status = 201) || bool_decide (status = 200) then
           ret ("✅ LinkedIn post successfully published! Post ID: "
                +:+ (if falsy id then "N/A" else default "" id))
         else ret ("⚠️ LinkedIn API returned status " +:+ pretty status)
     | Refused status message statusText =>
         (* thrown by axios, caught below: the error has a response *)
         ret ("❌ Failed to post to LinkedIn: "
              +:+ (if falsy message then statusText else default "" message)
              +:+ " (Status: " +:+ pretty status +:+ ")")
     | Failed message =>
         throw (newError message)
     end)
    (fun error => ret ("❌ Failed to post to LinkedIn: " +:+ err_message error)).

(** The handler of this file's tool [post_to_linkedin]; the schema gives
    [visibility] the default [PUBLIC]. *)
Definition linkedInDirectPostTool_func (text : string)
    (visibility : option LinkedIn.Visibility) : Async LinkedIn.Net string :=
  let visibility := default LinkedIn.PUBLIC visibility in
  try_catch
    (result <- postToLinkedIn text visibility ;;
     ret (result +:+ String "010" (String "010" "📝 Posted Content:")
          +:+ String "010" text))
    (fun error => ret ("❌ Failed to post to LinkedIn: " +:+ err_message error)).

(** *** The generating tool *)

Inductive Tone := professional | casual | inspiring | informative | conversational.

Definition tone_text (t : Tone) : string :=
  match t with
  | professional => "professional"
  | casual => "casual"
  | inspiring => "inspiring"
  | informative => "informative"
  | conversational => "conversational"
  end.

(** How the [n]-th generation ends (the model is built and invoked inside
    the tool's [try]): with the content of the answer, or with an error. *)
Variable generate : nat -> string -> Completion string.

(** The prompts sent to the model and the HTTP calls made so far. *)
Record Desk := mkDesk {
  prompts : list string;
  posts : LinkedIn.Net }.

Definition model_invoke (prompt : string) : Async Desk string :=
  fun d => (generate (length (prompts d)) prompt,
            {| prompts := prompts d ++ [prompt]; posts := posts d |}).

Definition in_posts {A} (c : Async LinkedIn.Net A) : Async Desk A :=
  zoom posts (fun n d => {| prompts := prompts d; posts := n |}) c.

Definition post_prompt (topic : string) (tone : option Tone) (includeHashtags : bool)
  : string :=
  "Generate a professional LinkedIn post about: " +:+ dquote +:+ topic +:+ dquote
  +:+ "." +:+ nl
  +:+ match tone with
      | Some t => "Write it in a " +:+ tone_text t +:+ " tone."
      | None => "Write it in a professional yet engaging tone."
      end +:+ nl
  +:+ (if includeHashtags then "Include 3-5 relevant hashtags at the end." else "")
  +:+ nl
  +:+ "Make it engaging, valuable, and appropriate for LinkedIn. Keep it between 150-300 words."
  +:+ nl
  +:+ "Return only the post content, no additional text.".

(** The handler of the tool [create_linkedin_post]; the schema gives
    [includeHashtags] the default [true] and [visibility] the default
    [PUBLIC]. *)
Definition linkedInPostTool_func (topic : string) (tone : option Tone)
    (includeHashtags : option bool) (visibility : option LinkedIn.Visibility)
  : Async Desk string :=
  let includeHashtags := default true includeHashtags in
  let visibility := default LinkedIn.PUBLIC visibility in
  try_catch
    ((* Generate LinkedIn post content *)
     generatedPost <- model_invoke (post_prompt topic tone includeHashtags) ;;
     (* Post to LinkedIn *)
     postResult <- in_posts (postToLinkedIn generatedPost visibility) ;;
     ret (postResult +:+ nl +:+ nl +:+ "📝 Generated Post:" +:+ nl +:+ generatedPost))
    (fun error =>
       ret ("❌ Error generating or posting to LinkedIn: " +:+ err_message error)).
End LinkedIn.
End LinkedInDirect.

(** ** The email tool *)

Module Email.
Import Js.
Local Open Scope async_scope.

Record Auth := { user : option string; pass : option string }.
Record Transporter := { service : string; auth : Auth }.

Record MailOptions := {
  from : option string;
  to : string;
  subject : string;
  text : string;
  cc : option string;
  bcc : option string }.

Section Email.
Variable env : gmap string string.
(** How the transport ends a [sendMail] call. *)
Variable sendMail : Transporter -> MailOptions -> Completion unit.

(** Create nodemailer transporter for email sending *)
Definition transporter : Transporter :=
  {| service := "gmail";
     auth := {| user := env !! "EMAIL_USER"; pass := env !! "EMAIL_PASS" |} |}.

(** The mails handed to the transport so far. *)
Definition Outbox : Type := list MailOptions.

Definition transporter_sendMail (m : MailOptions) : Async Outbox unit :=
  fun box => (sendMail transporter m, box ++ [m]).

(** Legacy function for backward compatibility *)
Definition sendEmail (to subject text : string) : Async Outbox string :=
  transporter_sendMail
    {| from := env !! "EMAIL_USER"; to := to; subject := subject; text := text;
       cc := None; bcc := None |} ;;;
  ret ("✅ Email sent to " +:+ to).

(** [if (x) ...] on an optional string: set and not empty. *)
Definition truthy (x : option string) : bool := negb (falsy x).

(** The [mailOptions] the tool builds: [cc] and [bcc] are set only when
    given and not empty. *)
Definition mailOptions_of (to subject message : string) (cc bcc : option string)
  : MailOptions :=
  {| from := env !! "EMAIL_USER";
     to := to;
     subject := subject;
     text := message;
     cc := if truthy cc then cc else None;
     bcc := if truthy bcc then bcc else None |}.

(** The handler of the tool [send_email]. *)
Definition emailToolkit_func (to subject message : string) (cc bcc : option string)
  : Async Outbox string :=
  try_catch
    (let mailOptions := mailOptions_of to subject message cc bcc in
     transporter_sendMail mailOptions ;;;
     ret ("✅ Email successfully sent to " +:+ to
          +:+ (if truthy cc then " (CC: " +:+ default "" cc +:+ ")" else "")
          +:+ (if truthy bcc then " (BCC: " +:+ default "" bcc +:+ ")" else "")))
    (fun error => ret ("❌ Failed to send email: " +:+ err_message error)).
End Email.
End Email.
(** ** Scenarios: concrete hosted models used to run the code *)

Module Scenario.
Import Js Agent.

(** A model that answers every request with the same text. *)
Definition answers (reply : string) : Backend :=
  fun _ _ => Return {| content := Text reply; tool_calls := [] |}.

(** A model that answers with the number of messages it was sent. *)
Definition counts_messages : Backend :=
  fun _ req =>
    Return {| content := Text ("seen " +:+ pretty (length (req_messages req)));
              tool_calls := [] |}.

(** An answer that only asks for a tool: its content is an array with the
    part of the call, no text. *)
Definition tool_call_only (n : nat) : AIMessageChunk :=
  {| content := Parts [ {| part_type := "functionCall"; part_text := None |} ];
     tool_calls := [ {| tc_name := "calculator";
                        tc_args := [("expression", "25*17")];
                        tc_id := "call_" +:+ pretty n |} ] |}.

(** A model that always asks for a tool and says nothing else. *)
Definition always_tool_call : Backend :=
  fun n _ => Return (tool_call_only n).

(** An endpoint that is down: every request is rejected. *)
Definition unavailable : Backend :=
  fun _ _ => Throw (newError "fetch failed").

(** An endpoint that rejects the second request only. *)
Definition fails_second : Backend :=
  fun n _ =>
    match n with
    | 1 => Throw (newError "fetch failed")
    | _ => Return {| content := Text "ok"; tool_calls := [] |}
    end.

(** The iteration bound the specification recommends for a turn loop; the
    source defines none. *)
Definition recommended_bound : nat := 5.

(** The calculator on the sample host, which has nothing to store. *)
Definition calculator (expression : string) : Run string :=
  (Agent.calculator_func (S := unit) Ecma.sample_eval Ecma.sample_ToString
     expression tt).1.

(** A host with one thing in its store: whether an earlier script has put
    something else in the place of [Math].  The script [Math=0] does that;
    from then on every script that mentions a name fails, as one that reads
    [Math.abs] would. *)
Definition replacing_eval (text : string) (replaced : bool) : Run Ecma.Value * bool :=
  if String.eqb text "Math=0" then (Ends (Return (Ecma.VNumber 0)), true)
  else if replaced && Ecma.mentions_name text
       then (Ends (Throw (TypeError "Math.abs is not a function")), true)
       else Ecma.sample_eval text replaced.

(** A Slack client that accepts every message. *)
Definition delivered {R : Type} : nat -> R -> Completion unit := fun _ _ => Return tt.

(** A file system with one file. *)
Definition notes : string :=
  String.concat " " (repeat "The bot answers questions about the handbook." 30).

Definition one_file (path : string) : Completion string :=
  if bool_decide (path = "notes.txt") then Return notes
  else Throw (newError ("ENOENT: no such file or directory, open '" +:+ path +:+ "'")).

(** A splitter that cuts windows of [chunkSize] characters, each starting
    [chunkSize - chunkOverlap] after the one before. *)
Fixpoint windows (fuel size step : nat) (cs : list ascii) : list (list ascii) :=
  match fuel with
  | O => []
  | S fuel =>
      if (length cs <=? size)%nat then [cs]
      else take size cs :: windows fuel size step (drop step cs)
  end.

Definition sliding (o : Rag.SplitterOptions) (texts : list string) : list Rag.Document :=
  flat_map (fun t =>
    map (fun w => {| Rag.pageContent := string_of_list_ascii w |})
      (windows (String.length t) (Rag.chunkSize o)
         (Rag.chunkSize o - Rag.chunkOverlap o) (list_ascii_of_string t))) texts.

(** An index kept in memory that ranks chunks in the order they were stored. *)
Definition memory_index (docs : list Rag.Document) (_ : Rag.ChromaArgs)
  : Completion (list Rag.Document) := Return docs.

Definition first_stored (vs : list Rag.Document) (_ : string) (k : nat)
  : Completion (list Rag.Document) := Return (take k vs).

(** A mail transport that refuses to send without a user and a password. *)
Definition needs_login (t : Email.Transporter) (_ : Email.MailOptions)
  : Completion unit :=
  if falsy (Email.user (Email.auth t)) || falsy (Email.pass (Email.auth t))
  then Throw (newError "Missing credentials for PLAIN")
  else Return tt.

(** A LinkedIn endpoint that accepts every post. *)
Definition accepts_posts (_ : LinkedIn.HttpCall) : LinkedIn.AxiosOutcome :=
  LinkedIn.Responded "urn:li:share:1".

Definition accepts_direct_posts (_ : LinkedIn.HttpCall) : LinkedInDirect.AxiosOutcome :=
  LinkedInDirect.Responded 201 (Some "urn:li:share:1").

(** A Slack client that refuses every message. *)
Definition channel_gone {R : Type} : nat -> R -> Completion unit :=
  fun _ _ => Throw (newError "channel_not_found").

(** A generator that writes the same post for every prompt, and one that is
    out of quota. *)
Definition writes (post : string) : nat -> string -> Completion string :=
  fun _ _ => Return post.

Definition out_of_quota : nat -> string -> Completion string :=
  fun _ _ => Throw (newError "quota exceeded").

(** The members every object inherits, all shown as native functions. *)
Definition object_members (name : string) : option string :=
  if bool_decide (name ∈ ["constructor"; "toString"; "valueOf"; "hasOwnProperty";
                          "isPrototypeOf"; "propertyIsEnumerable"; "toLocaleString"])
  then Some "function () { [native code] }"
  else None.

(** A LinkedIn endpoint that refuses the token, and one that cannot be
    reached. *)
Definition refuses_token (_ : LinkedIn.HttpCall) : LinkedIn.AxiosOutcome :=
  LinkedIn.Refused 401 "{}".

Definition unreachable (_ : LinkedIn.HttpCall) : LinkedIn.AxiosOutcome :=
  LinkedIn.Failed "connect ETIMEDOUT".

(** No setting at all. *)
Definition nothing_set : gmap string string := ∅.

(** Both LinkedIn settings, and the mail account. *)
Definition linkedin_env : gmap string string :=
  {[ "LINKEDIN_ACCESS_TOKEN" := "token"; "LINKEDIN_PERSON_ID" := "abc" ]}.

Definition mail_env : gmap string string :=
  {[ "EMAIL_USER" := "bot@example.com"; "EMAIL_PASS" := "app-password" ]}.
End Scenario.

(** * Properties *)

Import Js.

(** ** The agent turn *)

Section AgentFacts.
Import Agent.
Variable env : gmap string string.
Variable backend : Backend.

(** [runAgent], run symbolically. *)
Lemma runAgent_unfold text w :
  runAgent env backend text w =
  let h := history w ++ [HumanMessage text] in
  let sent := requests w ++ [request_of text w] in
  match backend (length (requests w)) (request_of text w) with
  | Return res =>
      (Return (content res),
       {| history := h ++ [AIMessage (content res)]; requests := sent |})
  | Throw e => (Throw e, {| history := h; requests := sent |})
  end.
Proof.
  unfold runAgent, bind, push, modify, gets, invoke, ret, request_of; simpl.
  destruct (backend _ _); reflexivity.
Qed.

(** The call is its two synchronous stretches, joined at the [await]. *)
Lemma runAgent_split text w :
  runAgent env backend text w =
  (let (pending, w1) := runAgent_until_await env backend text w in
   bind (settle pending) runAgent_after_await w1).
Proof.
  unfold runAgent, runAgent_until_await, runAgent_after_await,
    bind, settle, push, modify, gets, invoke, ret; simpl.
  destruct (backend _ _); reflexivity.
Qed.

Lemma runAgent_history text w :
  history (runAgent env backend text w).2 =
  history w ++ trail text (runAgent env backend text w).1.
Proof.
  rewrite runAgent_unfold; simpl.
  destruct (backend _ _); simpl; [rewrite <- app_assoc|]; reflexivity.
Qed.

Lemma runAgent_each_history texts : forall w,
  history (runAgent_each env backend texts w).2 =
  history w ++ concat (zip_with trail texts (runAgent_each env backend texts w).1).
Proof.
  induction texts as [|text rest IH]; intros w; simpl.
  - now rewrite app_nil_r.
  - pose proof (runAgent_history text w) as H1.
    destruct (runAgent env backend text w) as [r w1]; simpl in H1.
    specialize (IH w1).
    destruct (runAgent_each env backend rest w1) as [rs w2]; simpl in *.
    rewrite IH, H1, <- app_assoc. reflexivity.
Qed.

Lemma runAgent_each_length texts : forall w,
  length (runAgent_each env backend texts w).1 = length texts.
Proof.
  induction texts as [|text rest IH]; intros w; simpl; [reflexivity|].
  destruct (runAgent env backend text w) as [r w1].
  specialize (IH w1).
  destruct (runAgent_each env backend rest w1) as [rs w2]; simpl in *.
  now rewrite IH.
Qed.

Lemma trail_completed texts : forall replies,
  zip_with trail texts (map Return replies) = zip_with turns texts replies.
Proof.
  induction texts as [|t ts IH]; intros [|r rs]; simpl; try reflexivity.
  now rewrite IH.
Qed.

(** *** Overlapping calls *)

Lemma tick_history_prefix t l :
  history (world l) `prefix_of` history (world (tick env backend t l)).
Proof.
  destruct t as [text|call]; simpl.
  - unfold runAgent_until_await, bind, push, modify, gets, invoke; simpl.
    now apply prefix_app_r.
  - destruct (waiting l !! call) as [[res|e]|]; simpl; try reflexivity.
    now apply prefix_app_r.
Qed.

Lemma ticks_history_prefix ts : forall l,
  history (world l) `prefix_of` history (world (ticks env backend ts l)).
Proof.
  induction ts as [|t ts IH]; intros l; simpl; [reflexivity|].
  etransitivity; [apply (tick_history_prefix t)|apply IH].
Qed.

(** A call resumed right after it arrived is a plain [runAgent]. *)
Lemma tick_serial text l :
  let l' := ticks env backend [Arrive text; Resume (started l)] l in
  world l' = (runAgent env backend text (world l)).2
  /\ settled l' = settled l ++ [(started l, (runAgent env backend text (world l)).1)]
  /\ waiting l' = delete (started l) (waiting l).
Proof.
  unfold ticks; cbn [fold_left tick]. rewrite runAgent_split.
  destruct (runAgent_until_await env backend text (world l)) as [pending w1].
  cbn [world waiting settled started]. rewrite lookup_insert_eq.
  destruct (bind (settle pending) runAgent_after_await w1) as [r w2].
  cbn [world waiting settled started fst snd]. rewrite delete_insert_eq. auto.
Qed.

(** Human turns are appended by arriving calls only, assistant turns by
    resumed calls only. *)
Lemma tick_turns t l :
  filter is_human (history (world (tick env backend t l)))
  = filter is_human (history (world l)) ++ map HumanMessage (arrivals [t])
  /\ exists news,
       settled (tick env backend t l) = settled l ++ news
       /\ filter is_assistant (history (world (tick env backend t l)))
          = filter is_assistant (history (world l)) ++ map AIMessage (returned news).
Proof.
  destruct t as [text|call]; simpl.
  - unfold runAgent_until_await, bind, push, modify, gets, invoke; simpl.
    rewrite !filter_app; simpl. split; [reflexivity|].
    exists []. now rewrite !app_nil_r.
  - destruct (waiting l !! call) as [[res|e]|]; simpl.
    + rewrite !filter_app; simpl. split; [reflexivity|].
      eexists; split; reflexivity.
    + rewrite app_nil_r. split; [reflexivity|].
      eexists; split; [reflexivity|]. simpl. now rewrite app_nil_r.
    + rewrite app_nil_r. split; [reflexivity|].
      exists []. now rewrite !app_nil_r.
Qed.

Lemma ticks_turns ts : forall l,
  filter is_human (history (world (ticks env backend ts l)))
  = filter is_human (history (world l)) ++ map HumanMessage (arrivals ts)
  /\ exists news,
       settled (ticks env backend ts l) = settled l ++ news
       /\ filter is_assistant (history (world (ticks env backend ts l)))
          = filter is_assistant (history (world l)) ++ map AIMessage (returned news).
Proof.
  induction ts as [|t ts IH]; intros l.
  - simpl. rewrite app_nil_r. split; [reflexivity|].
    exists []. now rewrite !app_nil_r.
  - change (ticks env backend (t :: ts) l)
      with (ticks env backend ts (tick env backend t l)).
    destruct (IH (tick env backend t l)) as (Hh & news2 & Hs2 & Ha2).
    destruct (tick_turns t l) as (Hh1 & news1 & Hs1 & Ha1).
    split.
    + rewrite Hh, Hh1, <- app_assoc, <- map_app. do 2 f_equal.
      unfold arrivals. now rewrite <- omap_app.
    + exists (news1 ++ news2). split.
      * rewrite Hs2, Hs1, <- app_assoc. reflexivity.
      * rewrite Ha2, Ha1, <- app_assoc, <- map_app.
        unfold returned. now rewrite omap_app.
Qed.

(** From a start of the loop: the human turns are the arrived texts in
    arrival order, the assistant turns the returned texts in completion
    order. *)
Lemma ticks_turns_from_boot ts w :
  let l := ticks env backend ts (boot w) in
  filter is_human (history (world l))
  = filter is_human (history w) ++ map HumanMessage (arrivals ts)
  /\ filter is_assistant (history (world l))
     = filter is_assistant (history w) ++ map AIMessage (returned (settled l)).
Proof.
  destruct (ticks_turns ts (boot w)) as (Hh & news & Hs & Ha); simpl in *.
  split; [exact Hh|]. now rewrite Hs.
Qed.
End AgentFacts.

(** C1, as stated, fails: nothing keeps calls from overlapping, and two
    calls that overlap and both complete leave both human turns before both
    answers, not each human turn followed by its answer. *)
Lemma overlapping_calls_are_not_paired :
  let l := Agent.ticks ∅ Scenario.counts_messages
             [Agent.Arrive "a"; Agent.Arrive "b"; Agent.Resume 0; Agent.Resume 1]
             (Agent.boot Agent.init) in
  Agent.waiting l = ∅
  /\ Agent.settled l
     = [(0, Return (Agent.Text "seen 1")); (1, Return (Agent.Text "seen 2"))]
  /\ Agent.history (Agent.world l)
     = [Agent.HumanMessage "a"; Agent.HumanMessage "b";
        Agent.AIMessage (Agent.Text "seen 1"); Agent.AIMessage (Agent.Text "seen 2")]
  /\ Agent.history (Agent.world l)
     <> concat (zip_with Agent.turns ["a"; "b"]
                  [Agent.Text "seen 1"; Agent.Text "seen 2"]).
Proof. vm_compute. repeat split; congruence. Qed.

(** C1, amended.  Calls to [runAgent] that are made one after the other and
    all complete leave in the shared [history], after whatever it held before,
    exactly one human turn with the call's text followed by one assistant
    turn with the content the call returned, call by call in arrival order
    (for one call from the empty history: exactly those two turns).  Earlier
    turns are never changed or removed: the old history is a prefix of the new
    one.  When calls overlap, the history still only grows, its human turns
    are the texts of the calls in arrival order and its assistant turns the
    contents returned, in the order the calls completed. *)
Theorem runAgent_history_arrival_order
    (env : gmap string string) (backend : Agent.Backend)
    (texts : list string) (replies : list Agent.MessageContent)
    (w w' : Agent.World) :
  Agent.runAgent_each env backend texts w = (map Return replies, w') ->
  Agent.history w' =
    Agent.history w ++ concat (zip_with Agent.turns texts replies)
  /\ length replies = length texts
  /\ Agent.history w `prefix_of` Agent.history w'
  /\ (forall schedule l,
        Agent.history (Agent.world l) `prefix_of`
        Agent.history (Agent.world (Agent.ticks env backend schedule l)))
  /\ (forall schedule w0,
        let l := Agent.ticks env backend schedule (Agent.boot w0) in
        filter Agent.is_human (Agent.history (Agent.world l))
        = filter Agent.is_human (Agent.history w0)
          ++ map Agent.HumanMessage (Agent.arrivals schedule)
        /\ filter Agent.is_assistant (Agent.history (Agent.world l))
           = filter Agent.is_assistant (Agent.history w0)
             ++ map Agent.AIMessage (Agent.returned (Agent.settled l))).
Proof.
  intros Hrun.
  pose proof (runAgent_each_history env backend texts w) as Hh.
  pose proof (runAgent_each_length env backend texts w) as Hl.
  rewrite Hrun in Hh, Hl; simpl in Hh, Hl.
  rewrite trail_completed in Hh. rewrite length_map in Hl.
  repeat apply conj; auto.
  - rewrite Hh. now apply prefix_app_r.
  - intros schedule l. apply ticks_history_prefix.
  - intros schedule w0. apply ticks_turns_from_boot.
Qed.

Lemma runAgent_history_arrival_order_witness :
  Agent.runAgent_each ∅ Scenario.counts_messages ["hi"; "again"] Agent.init
  = (map Return [Agent.Text "seen 1"; Agent.Text "seen 3"],
     {| Agent.history :=
          [Agent.HumanMessage "hi"; Agent.AIMessage (Agent.Text "seen 1");
           Agent.HumanMessage "again"; Agent.AIMessage (Agent.Text "seen 3")];
        Agent.requests :=
          [Agent.request_of "hi" Agent.init;
           {| Agent.req_model := "gemini-2.5-flash"; Agent.req_tools := [];
              Agent.req_messages :=
                [Agent.HumanMessage "hi"; Agent.AIMessage (Agent.Text "seen 1");
                 Agent.HumanMessage "again"] |}] |})
  /\ Agent.history
       (Agent.runAgent_each ∅ Scenario.counts_messages ["hi"; "again"] Agent.init).2
     = [Agent.HumanMessage "hi"; Agent.AIMessage (Agent.Text "seen 1");
        Agent.HumanMessage "again"; Agent.AIMessage (Agent.Text "seen 3")].
Proof.
  split; [vm_compute; reflexivity|].
  exact (proj1 (runAgent_history_arrival_order ∅ Scenario.counts_messages
                  ["hi"; "again"] [Agent.Text "seen 1"; Agent.Text "seen 3"] Agent.init _
                  ltac:(vm_compute; reflexivity))).
Defined.

(** One call from the empty history: the human turn, then the answer. *)
Lemma runAgent_round_trip env backend text reply w' :
  Agent.runAgent env backend text Agent.init = (Return reply, w') ->
  Agent.history w' = [Agent.HumanMessage text; Agent.AIMessage reply].
Proof.
  intros H. pose proof (runAgent_history env backend text Agent.init) as Hh.
  rewrite H in Hh. exact Hh.
Qed.

(** A call whose request is rejected leaves its human turn without answer. *)
Example failed_call_leaves_human_turn :
  Agent.runAgent_each ∅ Scenario.fails_second ["a"; "b"; "c"] Agent.init
  = ([Return (Agent.Text "ok"); Throw (newError "fetch failed");
      Return (Agent.Text "ok")],
     (Agent.runAgent_each ∅ Scenario.fails_second ["a"; "b"; "c"] Agent.init).2)
  /\ Agent.history
       (Agent.runAgent_each ∅ Scenario.fails_second ["a"; "b"; "c"] Agent.init).2
     = [Agent.HumanMessage "a"; Agent.AIMessage (Agent.Text "ok"); Agent.HumanMessage "b";
        Agent.HumanMessage "c"; Agent.AIMessage (Agent.Text "ok")].
Proof. split; vm_compute; reflexivity. Qed.

(** C2.  What the code does: the one request of a [runAgent] call carries the
    whole history, the new human turn included, and no tool at all, since it is
    sent through [model], to which nothing is bound; the three tools are bound
    to [llmWithTools], which [runAgent] never invokes. *)
Theorem runAgent_request_offers_no_tools
    (env : gmap string string) (backend : Agent.Backend)
    (text : string) (w : Agent.World) :
  Agent.requests (Agent.runAgent env backend text w).2 =
    Agent.requests w ++
    [ {| Agent.req_model := "gemini-2.5-flash";
         Agent.req_tools := [];
         Agent.req_messages := Agent.history w ++ [Agent.HumanMessage text] |} ]
  /\ Agent.bound_tools (Agent.llmWithTools env) =
       [Agent.calculator; Agent.timeTool; Agent.echoTool]
  /\ Agent.bound_tools (Agent.model env) = [].
Proof.
  rewrite runAgent_unfold; simpl.
  destruct (backend _ _); simpl; auto.
Qed.

(** The same, evaluated for a first question. *)
Example runAgent_request_first_question :
  map Agent.req_tools
    (Agent.requests
       (Agent.runAgent ∅ (Scenario.answers "425") "What is 25*17?" Agent.init).2)
  = [[]].
Proof. vm_compute. reflexivity. Qed.

(** C3, as stated, fails: with a model that always asks for a tool, [runAgent]
    asks once, not [recommended_bound] times, and returns the content of that
    one answer as it is instead of failing with a diagnostic. *)
Lemma runAgent_always_tool_call_asks_once :
  let out := Agent.runAgent ∅ Scenario.always_tool_call "What is 25*17?" Agent.init in
  out.1 = Return (Agent.content (Scenario.tool_call_only 0))
  /\ length (Agent.requests out.2) = 1
  /\ length (Agent.requests out.2) <> Scenario.recommended_bound
  /\ Agent.history out.2
     = [Agent.HumanMessage "What is 25*17?";
        Agent.AIMessage (Agent.content (Scenario.tool_call_only 0))].
Proof. vm_compute. repeat split; congruence. Qed.

(** C3, amended.  Every [runAgent] call sends exactly one request and then
    ends: with the content of the answer, as it is, when the request is
    fulfilled, whatever tool calls the answer carries, and with the request's
    error when it is rejected.  Nothing is asked twice and no tool is run. *)
Theorem runAgent_asks_exactly_once
    (env : gmap string string) (backend : Agent.Backend)
    (text : string) (w : Agent.World) :
  let out := Agent.runAgent env backend text w in
  length (Agent.requests out.2) = S (length (Agent.requests w))
  /\ out.1 =
       match backend (length (Agent.requests w)) (Agent.request_of text w) with
       | Return res => Return (Agent.content res)
       | Throw e => Throw e
       end.
Proof.
  simpl. rewrite runAgent_unfold; simpl.
  destruct (backend _ _); simpl; rewrite length_app; simpl; split; auto; lia.
Qed.

(** The stateless variant sends the bare text and keeps nothing between
    calls. *)
Example stateless_runAgent_sends_text_only :
  AgentStateless.runAgent
    (fun _ _ => Return {| Agent.content := Agent.Text "ok"; Agent.tool_calls := [] |})
    "second" ["first"]
  = (Return (Agent.Text "ok"), ["first"; "second"]).
Proof. reflexivity. Qed.

(** ** The calculator *)

Section CalculatorFacts.
Context {S V : Type}.
Variable host_eval : string -> S -> Run V * S.
Variable host_ToString : V -> S -> Run string * S.




Lemma calculator_func_result expression s v s1 text s2 :
  host_eval expression s = (Ends (Return v), s1) ->
  host_ToString v s1 = (Ends (Return text), s2) ->
  Agent.calculator_func host_eval host_ToString expression s
  = (Ends (Return ("Result: " +:+ text)), s2).
Proof. unfold Agent.calculator_func. now intros -> ->. Qed.

(** It answers [Invalid math expression] exactly when something was thrown. *)
Lemma calculator_func_invalid expression s :
  (Agent.calculator_func host_eval host_ToString expression s).1
  = Ends (Return "Invalid math expression")
  <-> (exists e s1, host_eval expression s = (Ends (Throw e), s1))
      \/ (exists v s1 e s2,
            host_eval expression s = (Ends (Return v), s1)
            /\ host_ToString v s1 = (Ends (Throw e), s2)).
Proof.
  unfold Agent.calculator_func.
  destruct (host_eval expression s) as [[[v|e1]|] s1]; simpl.
  - destruct (host_ToString v s1) as [[[t|e2]|] s2] eqn:Hs; simpl.
    + split; [discriminate|].
      intros [(e & s' & H)|(v' & s' & e & s'' & Hv & Ht)]; [discriminate|].
      injection Hv as <- <-. congruence.
    + split; [|reflexivity]. intros _. right. exists v, s1, e2, s2. auto.
    + split; [discriminate|].
      intros [(e & s' & H)|(v' & s' & e & s'' & Hv & Ht)]; [discriminate|].
      injection Hv as <- <-. congruence.
  - split; [|reflexivity]. intros _. left. eauto.
  - split; [discriminate|].
    intros [(e & s' & H)|(v' & s' & e & s'' & Hv & _)]; discriminate.
Qed.
End CalculatorFacts.

Lemma sample_host_conforms (S : Type) :
  Ecma.conforms (S := S) (fun _ => True) Ecma.sample_eval Ecma.sample_ToString.
Proof.
  repeat apply conj.
  - intros text s _. unfold Ecma.agrees, Ecma.sample_eval, Ecma.sample_run.
    destruct (Ecma.eval text) as [[v|k|]|]; simpl; eauto.
  - intros v s _. unfold Ecma.agrees, Ecma.sample_ToString, Ecma.sample_run.
    destruct (Ecma.ToString v) as [[t|k|]|]; simpl; eauto.
  - intros x s. unfold Ecma.sample_ToString, Ecma.sample_run, Ecma.ToString.
    destruct (Ecma.Number_toString x); simpl; eauto.
Qed.

Section OnTheFragment.
Context {S : Type}.
Variable intact : S -> Prop.
Variable host_eval : string -> S -> Run Ecma.Value * S.
Variable host_ToString : Ecma.Value -> S -> Run string * S.
Hypothesis Hhost : Ecma.conforms intact host_eval host_ToString.

(** On a conforming host the fragment decides what [eval] does. *)
Lemma host_eval_gives expression v s :
  intact s \/ Ecma.mentions_name expression = false ->
  Ecma.eval expression = Some (Ecma.Gives v) ->
  host_eval expression s = (Ends (Return v), s).
Proof.
  intros Hs H. destruct Hhost as (He & _ & _).
  specialize (He expression s Hs). now rewrite H in He.
Qed.


Lemma host_ToString_gives v text s :
  intact s \/ Ecma.primitive v = true ->
  Ecma.ToString v = Some (Ecma.Gives text) ->
  host_ToString v s = (Ends (Return text), s).
Proof.
  intros Hs H. destruct Hhost as (_ & Ht & _).
  specialize (Ht v s Hs). now rewrite H in Ht.
Qed.

Lemma calculator_func_on_fragment expression v text s :
  intact s \/ (Ecma.mentions_name expression = false /\ Ecma.primitive v = true) ->
  Ecma.eval expression = Some (Ecma.Gives v) ->
  Ecma.ToString v = Some (Ecma.Gives text) ->
  Agent.calculator_func host_eval host_ToString expression s
  = (Ends (Return ("Result: " +:+ text)), s).
Proof.
  intros Hs Hv Ht.
  assert (intact s \/ Ecma.mentions_name expression = false) by tauto.
  assert (intact s \/ Ecma.primitive v = true) by tauto.
  apply (calculator_func_result _ _ expression s v s text s).
  - apply host_eval_gives; assumption.
  - apply host_ToString_gives; assumption.
Qed.


Lemma calculator_func_on_fragment_unprintable expression v k s :
  intact s ->
  Ecma.eval expression = Some (Ecma.Gives v) ->
  Ecma.ToString v = Some (Ecma.Throws k) ->
  Agent.calculator_func host_eval host_ToString expression s
  = (Ends (Return "Invalid math expression"), s).
Proof.
  intros Hi Hv Hs. destruct Hhost as (_ & Ht & _).
  specialize (Ht v s (or_introl Hi)). rewrite Hs in Ht. destruct Ht as [message Ht].
  unfold Agent.calculator_func.
  now rewrite (host_eval_gives _ _ _ (or_introl Hi) Hv), Ht.
Qed.

End OnTheFragment.




(** C5, as stated, fails: [Math.abs(0-5)] names a global, calls a function,
    and is evaluated, not rejected. *)
Lemma calculator_runs_names_and_calls :
  Ecma.mentions_name "Math.abs(0-5)" = true
  /\ Ecma.calls_function "Math.abs(0-5)" = true
  /\ Ecma.eval "Math.abs(0-5)" = Some (Ecma.Gives (Ecma.VNumber 5))
  /\ Scenario.calculator "Math.abs(0-5)" = Ends (Return "Result: 5")
  /\ Scenario.calculator "Math.abs(0-5)" <> Ends (Return "Invalid math expression").
Proof. vm_compute. repeat split; congruence. Qed.

(** C5, amended.  The calculator hands its input to the host's [eval] as it
    is: whatever [eval] accepts is evaluated and reported, names and calls
    included ([Math.abs(0-5)] gives [Result: 5], [Infinity] gives
    [Result: Infinity]); the answer is [Invalid math expression] exactly when
    [eval], or turning its value into text, throws (as for [Symbol()]). *)
Theorem calculator_evaluates_what_eval_accepts
    {S : Type} (intact : S -> Prop)
    (host_eval : string -> S -> Run Ecma.Value * S)
    (host_ToString : Ecma.Value -> S -> Run string * S) :
  Ecma.conforms intact host_eval host_ToString ->
  (forall s, intact s ->
     Agent.calculator_func host_eval host_ToString "Math.abs(0-5)" s
     = (Ends (Return "Result: 5"), s))
  /\ (forall s, intact s ->
        Agent.calculator_func host_eval host_ToString "Infinity" s
        = (Ends (Return "Result: Infinity"), s))
  /\ (forall s, intact s ->
        Agent.calculator_func host_eval host_ToString "Symbol()" s
        = (Ends (Return "Invalid math expression"), s))
  /\ (forall expression s value s1 text s2,
        host_eval expression s = (Ends (Return value), s1) ->
        host_ToString value s1 = (Ends (Return text), s2) ->
        Agent.calculator_func host_eval host_ToString expression s
        = (Ends (Return ("Result: " +:+ text)), s2))
  /\ (forall expression s,
        (Agent.calculator_func host_eval host_ToString expression s).1
        = Ends (Return "Invalid math expression")
        <-> (exists e s1, host_eval expression s = (Ends (Throw e), s1))
            \/ (exists v s1 e s2,
                  host_eval expression s = (Ends (Return v), s1)
                  /\ host_ToString v s1 = (Ends (Throw e), s2))).
Proof.
  intros H. repeat apply conj.
  - intros s Hs.
    apply (calculator_func_on_fragment _ _ _ H _ (Ecma.VNumber 5) "5" s
             (or_introl Hs)); vm_compute; reflexivity.
  - intros s Hs.
    apply (calculator_func_on_fragment _ _ _ H _ (Ecma.VNumber infinity) "Infinity"
             s (or_introl Hs)); vm_compute; reflexivity.
  - intros s Hs.
    apply (calculator_func_on_fragment_unprintable _ _ _ H _ Ecma.VSymbol
             Ecma.TypeErr s Hs); vm_compute; reflexivity.
  - intros expression s value s1 text s2. apply calculator_func_result.
  - intros expression s. apply calculator_func_invalid.
Qed.

Lemma calculator_evaluates_what_eval_accepts_witness :
  Scenario.calculator "Math.abs(0-5)" = Ends (Return "Result: 5")
  /\ Scenario.calculator "Infinity" = Ends (Return "Result: Infinity")
  /\ Scenario.calculator "Symbol()" = Ends (Return "Invalid math expression").
Proof.
  destruct (calculator_evaluates_what_eval_accepts (fun _ => True)
              Ecma.sample_eval Ecma.sample_ToString (sample_host_conforms unit))
    as (H1 & H2 & H3 & _).
  unfold Scenario.calculator. rewrite (H1 tt I), (H2 tt I), (H3 tt I). repeat split.
Defined.

(** A host whose errors carry other messages conforms as well. *)
Example other_messages_conform :
  Ecma.conforms (S := unit) (fun _ => True)
    (fun text s =>
       (match Ecma.eval text with
        | Some (Ecma.Throws Ecma.SyntaxErr) =>
            Ends (Throw (SyntaxError "Unexpected end of input"))
        | said => Ecma.sample_run said (Ends (Throw (SyntaxError "not modelled")))
        end, s))
    Ecma.sample_ToString.
Proof.
  destruct (sample_host_conforms unit) as (_ & Ht & Hn).
  repeat apply conj; [|exact Ht|exact Hn].
  intros text s _. unfold Ecma.agrees, Ecma.sample_run.
  destruct (Ecma.eval text) as [[v|[]|]|]; simpl; eauto.
Qed.

(** A host whose store scripts can change conforms too, in the stores where
    [Math] is still the built-in object; what one calculator call leaves
    behind changes the answer of the next. *)
Example replacing_host_conforms :
  Ecma.conforms (fun replaced => replaced = false)
    Scenario.replacing_eval Ecma.sample_ToString.
Proof.
  destruct (sample_host_conforms bool) as (He & Ht & Hn).
  repeat apply conj; [|intros v s _; apply Ht; now left|exact Hn].
  intros text s Hs. unfold Scenario.replacing_eval.
  destruct (String.eqb_spec text "Math=0") as [->|_]; [vm_compute; exact I|].
  destruct Hs as [-> | ->]; [|rewrite andb_false_r]; apply He; now left.
Qed.

Example replaced_Math_changes_answers :
  Agent.calculator_func Scenario.replacing_eval Ecma.sample_ToString
    "Math.abs(0-5)" false
  = (Ends (Return "Result: 5"), false)
  /\ Agent.calculator_func Scenario.replacing_eval Ecma.sample_ToString
       "Math=0" false
     = (Ends (Return "Result: 0"), true)
  /\ Agent.calculator_func Scenario.replacing_eval Ecma.sample_ToString
       "Math.abs(0-5)" true
     = (Ends (Return "Invalid math expression"), true)
  /\ Agent.calculator_func Scenario.replacing_eval Ecma.sample_ToString
       "25*17" true
     = (Ends (Return "Result: 425"), true).
Proof. repeat split; vm_compute; reflexivity. Qed.

(** More of what the fragment decides. *)
Example calculator_more :
  map Scenario.calculator
    ["10/2+5"; ""; "-10/0"; "0/0"; "0*-1"; "(1,2)"; "1 2"; "undefined(1)"; "Math"]
  = map (fun text => Ends (Return text))
      ["Result: 10"; "Result: undefined"; "Result: -Infinity"; "Result: NaN";
       "Result: 0"; "Result: 2"; "Invalid math expression";
       "Invalid math expression"; "Result: [object Math]"].
Proof. vm_compute. reflexivity. Qed.

(** The echo tool repeats its text unchanged. *)
Example echo_hello : Agent.echoTool_func "hello" = Return "Echo: hello".
Proof. reflexivity. Qed.

(** ** The Slack adapter *)

Section SlackFacts.
Import Slack.
Context {W R : Type}.
Variable runAgent : string -> Async W R.
Variable post : nat -> R -> Completion unit.

(** A message without text, or with an empty one, is dropped before anything
    else happens. *)
Lemma on_message_drops_textless event c :
  falsy (message_text event) = true ->
  on_message runAgent post event c = (Return tt, c).
Proof. unfold on_message. now intros ->. Qed.

(** Otherwise the handler asks the agent and says its reply. *)
Lemma on_message_with_text text c :
  text <> "" ->
  on_message runAgent post {| message_text := Some text |} c =
  on_app_mention runAgent post {| mention_text := text |} c.
Proof.
  intros Hne. unfold on_message, on_app_mention; simpl.
  now rewrite bool_decide_eq_false_2.
Qed.

Lemma on_app_mention_unfold text c :
  on_app_mention runAgent post {| mention_text := text |} c =
  match runAgent text (agent c) with
  | (Return reply, w) =>
      (post (length (said c)) reply, {| agent := w; said := said c ++ [reply] |})
  | (Throw e, w) => (Throw e, {| agent := w; said := said c |})
  end.
Proof.
  unfold on_app_mention, in_agent, zoom, bind, say; simpl.
  destruct (runAgent text (agent c)) as [[reply|e] w]; reflexivity.
Qed.
End SlackFacts.

(** C6, as stated, fails: when the endpoint is down the [message] handler is
    rejected with the agent's error and nothing is said on the channel. *)
Lemma on_message_rejected_when_agent_fails :
  let out :=
    Slack.on_message (Agent.runAgent ∅ Scenario.unavailable) Scenario.delivered
      {| Slack.message_text := Some "hello" |}
      {| Slack.agent := Agent.init; Slack.said := [] |} in
  out.1 = Throw (newError "fetch failed")
  /\ Slack.said out.2 = []
  /\ Agent.history (Slack.agent out.2) = [Agent.HumanMessage "hello"].
Proof. vm_compute. repeat split; reflexivity. Qed.

(** C6, amended.  When the call into [runAgent] fails, neither handler
    catches the error: the handler is rejected with that same error, nothing is
    said on the channel, and the agent's store stays as the failed call left
    it.  (A [message] event with an empty text never reaches [runAgent].) *)
Theorem handlers_rethrow_agent_errors
    {W R : Type} (runAgent : string -> Async W R)
    (post : nat -> R -> Completion unit)
    (text : string) (c : Slack.Channel) (e : Error) (w : W) :
  runAgent text (Slack.agent c) = (Throw e, w) ->
  Slack.on_app_mention runAgent post {| Slack.mention_text := text |} c
  = (Throw e, {| Slack.agent := w; Slack.said := Slack.said c |})
  /\ Slack.on_message runAgent post {| Slack.message_text := Some text |} c
     = if bool_decide (text = "") then (Return tt, c)
       else (Throw e, {| Slack.agent := w; Slack.said := Slack.said c |}).
Proof.
  intros Hfail. split.
  - rewrite on_app_mention_unfold, Hfail. reflexivity.
  - case_bool_decide as Htext.
    + apply on_message_drops_textless. subst text. reflexivity.
    + rewrite on_message_with_text by assumption.
      rewrite on_app_mention_unfold, Hfail. reflexivity.
Qed.

Lemma handlers_rethrow_agent_errors_witness :
  let c := {| Slack.agent := Agent.init; Slack.said := [] |} in
  let w := (Agent.runAgent ∅ Scenario.unavailable "hello" Agent.init).2 in
  Agent.runAgent ∅ Scenario.unavailable "hello" Agent.init
  = (Throw (newError "fetch failed"), w)
  /\ Slack.on_app_mention (Agent.runAgent ∅ Scenario.unavailable) Scenario.delivered
       {| Slack.mention_text := "hello" |} c
     = (Throw (newError "fetch failed"), {| Slack.agent := w; Slack.said := [] |}).
Proof.
  split; [vm_compute; reflexivity|].
  exact (proj1 (handlers_rethrow_agent_errors
                  (Agent.runAgent ∅ Scenario.unavailable) Scenario.delivered "hello"
                  {| Slack.agent := Agent.init; Slack.said := [] |}
                  (newError "fetch failed") _ ltac:(vm_compute; reflexivity))).
Defined.

(** When the agent answers, the reply is said once on the channel. *)
Example on_message_replies :
  let out :=
    Slack.on_message (Agent.runAgent ∅ (Scenario.answers "hi there")) Scenario.delivered
      {| Slack.message_text := Some "hello" |}
      {| Slack.agent := Agent.init; Slack.said := [] |} in
  out.1 = Return tt /\ Slack.said out.2 = [Agent.Text "hi there"].
Proof. vm_compute. split; reflexivity. Qed.

(** C9.  A [message] event whose text is missing or empty makes the handler
    return at once: [runAgent] is not called, so the shared history and the
    requests sent are as before, and nothing is said. *)
Theorem on_message_without_text_changes_nothing
    (env : gmap string string) (backend : Agent.Backend)
    (post : nat -> Agent.MessageContent -> Completion unit)
    (event : Slack.MessageEvent) (c : Slack.Channel) :
  falsy (Slack.message_text event) = true ->
  let out := Slack.on_message (Agent.runAgent env backend) post event c in
  out.1 = Return tt
  /\ Agent.history (Slack.agent out.2) = Agent.history (Slack.agent c)
  /\ Agent.requests (Slack.agent out.2) = Agent.requests (Slack.agent c)
  /\ Slack.said out.2 = Slack.said c
  /\ out.2 = c.
Proof.
  intros Hfalsy. simpl.
  rewrite (on_message_drops_textless _ _ _ _ Hfalsy). simpl. auto.
Qed.

Lemma on_message_without_text_changes_nothing_witness :
  let c := {| Slack.agent := Agent.init; Slack.said := [] |} in
  (falsy None = true
   /\ Slack.on_message (Agent.runAgent ∅ (Scenario.answers "hi")) Scenario.delivered
        {| Slack.message_text := None |} c = (Return tt, c))
  /\ (falsy (Some "") = true
      /\ Slack.on_message (Agent.runAgent ∅ (Scenario.answers "hi")) Scenario.delivered
           {| Slack.message_text := Some "" |} c = (Return tt, c)).
Proof.
  split; (split; [reflexivity|]).
  - pose proof (on_message_without_text_changes_nothing ∅ (Scenario.answers "hi")
                  Scenario.delivered {| Slack.message_text := None |}
                  {| Slack.agent := Agent.init; Slack.said := [] |} eq_refl)
      as (H1 & _ & _ & _ & H2).
    apply injective_projections; [exact H1|exact H2].
  - pose proof (on_message_without_text_changes_nothing ∅ (Scenario.answers "hi")
                  Scenario.delivered {| Slack.message_text := Some "" |}
                  {| Slack.agent := Agent.init; Slack.said := [] |} eq_refl)
      as (H1 & _ & _ & _ & H2).
    apply injective_projections; [exact H1|exact H2].
Defined.

(** The [app_mention] handler has no such guard: an empty mention is asked. *)
Example on_app_mention_asks_empty_text :
  Agent.history (Slack.agent
    (Slack.on_app_mention (Agent.runAgent ∅ (Scenario.answers "hi")) Scenario.delivered
       {| Slack.mention_text := "" |}
       {| Slack.agent := Agent.init; Slack.said := [] |}).2)
  = [Agent.HumanMessage ""; Agent.AIMessage (Agent.Text "hi")].
Proof. vm_compute. reflexivity. Qed.

(** ** Document indexing and search *)

Section RagFacts.
Import Rag.
Context {Chroma : Type}.
Variable readFileSync : string -> Completion string.
Variable createDocuments : SplitterOptions -> list string -> list Document.
Variable fromDocuments : list Document -> ChromaArgs -> Completion Chroma.
Variable similaritySearch : Chroma -> string -> nat -> Completion (list Document).

Lemma loadDocument_unfold path s :
  loadDocument readFileSync createDocuments fromDocuments path s =
  match readFileSync path with
  | Return text =>
      match fromDocuments
              (createDocuments {| chunkSize := 500; chunkOverlap := 100 |} [text])
              {| collectionName := "docs"; url := "http://localhost:8000" |} with
      | Return vs => (Return tt, {| vectorStore := Some vs |})
      | Throw e => (Throw e, s)
      end
  | Throw e => (Throw e, s)
  end.
Proof.
  unfold loadDocument, bind, settle, modify.
  destruct (readFileSync path) as [text|e]; [|reflexivity].
  destruct (fromDocuments _ _); reflexivity.
Qed.

(** A load that fails leaves [vectorStore] as it was. *)
Lemma loadDocument_failed path s e s' :
  loadDocument readFileSync createDocuments fromDocuments path s = (Throw e, s') ->
  s' = s.
Proof.
  rewrite loadDocument_unfold.
  destruct (readFileSync path) as [text|e1]; [|congruence].
  destruct (fromDocuments _ _); congruence.
Qed.

Lemma loadDocument_each_all_failed paths : forall s,
  Forall (fun r => is_return r = false)
    (loadDocument_each readFileSync createDocuments fromDocuments paths s).1 ->
  (loadDocument_each readFileSync createDocuments fromDocuments paths s).2 = s.
Proof.
  induction paths as [|path rest IH]; intros s; simpl; [reflexivity|].
  destruct (loadDocument readFileSync createDocuments fromDocuments path s)
    as [r s1] eqn:Hload.
  specialize (IH s1).
  destruct (loadDocument_each readFileSync createDocuments fromDocuments rest s1)
    as [rs s2]; simpl in *.
  intros Hall. apply Forall_cons_1 in Hall as [Hr Hrs].
  destruct r as [u|e]; [discriminate|].
  apply loadDocument_failed in Hload. subst s1. auto.
Qed.

Lemma searchDocs_unloaded query :
  searchDocs similaritySearch query unloaded =
  (Throw (TypeError "Cannot read properties of undefined (reading 'similaritySearch')"),
   unloaded).
Proof. reflexivity. Qed.
End RagFacts.

(** C8.  [loadDocument] reads the file, has the splitter cut its text with
    chunk size 500 and overlap 100, and stores the chunks in the vector index
    (collection [docs]), whose handle it keeps; [searchDocs] then asks that
    index for the 3 chunks most similar to the query and returns their contents
    joined into one text, a blank line between two chunks. *)
Theorem loadDocument_chunks_searchDocs_top3
    {Chroma : Type}
    (readFileSync : string -> Completion string)
    (createDocuments : Rag.SplitterOptions -> list string -> list Rag.Document)
    (fromDocuments : list Rag.Document -> Rag.ChromaArgs -> Completion Chroma)
    (similaritySearch : Chroma -> string -> nat -> Completion (list Rag.Document))
    (path text query : string) (vs : Chroma) (results : list Rag.Document)
    (s : Rag.Store) :
  readFileSync path = Return text ->
  fromDocuments
    (createDocuments {| Rag.chunkSize := 500; Rag.chunkOverlap := 100 |} [text])
    {| Rag.collectionName := "docs"; Rag.url := "http://localhost:8000" |}
  = Return vs ->
  similaritySearch vs query 3 = Return results ->
  Rag.loadDocument readFileSync createDocuments fromDocuments path s
  = (Return tt, {| Rag.vectorStore := Some vs |})
  /\ Rag.searchDocs similaritySearch query {| Rag.vectorStore := Some vs |}
     = (Return (String.concat (String "010" (String "010" EmptyString))
                  (map Rag.pageContent results)),
        {| Rag.vectorStore := Some vs |}).
Proof.
  intros Hread Hstore Hsearch. split.
  - rewrite loadDocument_unfold, Hread, Hstore. reflexivity.
  - unfold Rag.searchDocs, bind, gets, settle, ret; simpl.
    rewrite Hsearch. reflexivity.
Qed.

Lemma loadDocument_chunks_searchDocs_top3_witness :
  let chunks :=
    Scenario.sliding {| Rag.chunkSize := 500; Rag.chunkOverlap := 100 |}
      [Scenario.notes] in
  (length chunks = 4
   /\ map (fun d => String.length (Rag.pageContent d)) chunks = [500; 500; 500; 179])
  /\ Rag.loadDocument Scenario.one_file Scenario.sliding Scenario.memory_index
       "notes.txt" Rag.unloaded
     = (Return tt, {| Rag.vectorStore := Some chunks |})
  /\ (Rag.searchDocs Scenario.first_stored "handbook"
        {| Rag.vectorStore := Some chunks |}).1
     = Return (String.concat (String "010" (String "010" EmptyString))
                 (map Rag.pageContent (take 3 chunks))).
Proof.
  split; [vm_compute; split; reflexivity|].
  pose proof (loadDocument_chunks_searchDocs_top3
                Scenario.one_file Scenario.sliding Scenario.memory_index
                Scenario.first_stored "notes.txt" Scenario.notes "handbook"
                (Scenario.sliding {| Rag.chunkSize := 500; Rag.chunkOverlap := 100 |}
                   [Scenario.notes])
                (take 3 (Scenario.sliding
                           {| Rag.chunkSize := 500; Rag.chunkOverlap := 100 |}
                           [Scenario.notes]))
                Rag.unloaded eq_refl eq_refl eq_refl) as [Hload Hsearch].
  split; [exact Hload|].
  exact (f_equal fst Hsearch).
Defined.

(** C10.  As long as no [loadDocument] call has succeeded, [vectorStore] has
    no value, and [searchDocs] throws a [TypeError] for every query; it never
    returns an empty result. *)
Theorem searchDocs_before_load_throws
    {Chroma : Type}
    (readFileSync : string -> Completion string)
    (createDocuments : Rag.SplitterOptions -> list string -> list Rag.Document)
    (fromDocuments : list Rag.Document -> Rag.ChromaArgs -> Completion Chroma)
    (similaritySearch : Chroma -> string -> nat -> Completion (list Rag.Document))
    (paths : list string) (query : string) :
  let loads :=
    Rag.loadDocument_each readFileSync createDocuments fromDocuments paths
      Rag.unloaded in
  Forall (fun r => is_return r = false) loads.1 ->
  Rag.vectorStore loads.2 = None
  /\ Rag.searchDocs similaritySearch query loads.2
     = (Throw (TypeError
                 "Cannot read properties of undefined (reading 'similaritySearch')"),
        loads.2)
  /\ (Rag.searchDocs similaritySearch query loads.2).1 <> Return "".
Proof.
  intros loads Hall. subst loads.
  rewrite (loadDocument_each_all_failed _ _ _ paths Rag.unloaded Hall).
  repeat split; discriminate.
Qed.

Lemma searchDocs_before_load_throws_witness :
  (Rag.loadDocument_each Scenario.one_file Scenario.sliding Scenario.memory_index
     ["missing.txt"] Rag.unloaded).1
  = [Throw (newError "ENOENT: no such file or directory, open 'missing.txt'")]
  /\ (Rag.searchDocs Scenario.first_stored "handbook"
        (Rag.loadDocument_each Scenario.one_file Scenario.sliding Scenario.memory_index
           ["missing.txt"] Rag.unloaded).2).1
     = Throw (TypeError "Cannot read properties of undefined (reading 'similaritySearch')").
Proof.
  split; [vm_compute; reflexivity|].
  pose proof (searchDocs_before_load_throws
                Scenario.one_file Scenario.sliding Scenario.memory_index
                Scenario.first_stored ["missing.txt"] "handbook"
                ltac:(repeat constructor)) as (_ & H & _).
  exact (f_equal fst H).
Defined.

(** Straight after start-up, with no load attempted at all. *)
Example searchDocs_at_startup :
  (Rag.searchDocs Scenario.first_stored "anything" Rag.unloaded).1
  = Throw (TypeError "Cannot read properties of undefined (reading 'similaritySearch')").
Proof. reflexivity. Qed.

(** After a successful load the same query is answered. *)
Example searchDocs_after_load :
  let s := (Rag.loadDocument Scenario.one_file Scenario.sliding Scenario.memory_index
              "notes.txt" Rag.unloaded).2 in
  is_return (Rag.searchDocs Scenario.first_stored "handbook" s).1 = true.
Proof. vm_compute. reflexivity. Qed.

(** ** Tools that need credentials *)

Section LinkedInFacts.
Import LinkedIn.
Variable env : gmap string string.
Variable axios_post : HttpCall -> AxiosOutcome.

Lemma postToLinkedIn_missing_setting text visibility net :
  falsy (env !! "LINKEDIN_ACCESS_TOKEN") || falsy (env !! "LINKEDIN_PERSON_ID") = true ->
  postToLinkedIn env axios_post text visibility net
  = (Throw (newError (missing_setting env)), net).
Proof.
  unfold postToLinkedIn, missing_setting, throw.
  destruct (falsy (env !! "LINKEDIN_ACCESS_TOKEN")); simpl; [reflexivity|].
  now intros ->.
Qed.

(** The tool turns every error of [postToLinkedIn] into its answer. *)
Lemma postToLinkedInTool_func_returns text visibility net :
  exists answer, (postToLinkedInTool_func env axios_post text visibility net).1
                 = Return answer.
Proof.
  unfold postToLinkedInTool_func, try_catch, bind, ret.
  destruct (postToLinkedIn env axios_post text visibility net) as [[r|e] net'];
    simpl; eauto.
Qed.
End LinkedInFacts.

Section LinkedInDirectFacts.
Import LinkedInDirect.
Variable env : gmap string string.
Variable axios_post : LinkedIn.HttpCall -> AxiosOutcome.

Lemma postToLinkedIn_never_throws text visibility net :
  exists answer, (postToLinkedIn env axios_post text visibility net).1 = Return answer.
Proof.
  unfold postToLinkedIn, try_catch, bind, settle, modify, ret, throw.
  destruct getLinkedInAccessToken; simpl; eauto.
  destruct getLinkedInPersonId; simpl; eauto.
  destruct (axios_post _) as [status id|status message statusText|message];
    simpl; eauto.
  destruct (bool_decide (status = 201) || bool_decide (status = 200)); simpl; eauto.
Qed.

Lemma linkedInDirectPostTool_func_returns text visibility net :
  exists answer,
    (linkedInDirectPostTool_func env axios_post text visibility net).1 = Return answer.
Proof.
  unfold linkedInDirectPostTool_func, try_catch, bind, ret.
  destruct (postToLinkedIn env axios_post text (default LinkedIn.PUBLIC visibility) net)
    as [[r|e] net']; simpl; eauto.
Qed.

Lemma linkedInDirectPostTool_func_missing_token text visibility net :
  falsy (env !! "LINKEDIN_ACCESS_TOKEN") = true ->
  linkedInDirectPostTool_func env axios_post text visibility net
  = (Return ("❌ Failed to post to LinkedIn: LINKEDIN_ACCESS_TOKEN not found in environment variables"
             +:+ String "010" (String "010" "📝 Posted Content:")
             +:+ String "010" text), net).
Proof.
  intros H.
  unfold linkedInDirectPostTool_func, postToLinkedIn, getLinkedInAccessToken,
    try_catch, bind, settle, ret.
  rewrite H. reflexivity.
Qed.
End LinkedInDirectFacts.

Section EmailFacts.
Import Email.
Variable env : gmap string string.
Variable sendMail : Transporter -> MailOptions -> Completion unit.

Lemma emailToolkit_func_unfold to subject message cc bcc box :
  emailToolkit_func env sendMail to subject message cc bcc box =
  (match sendMail (transporter env) (mailOptions_of env to subject message cc bcc) with
   | Return _ =>
       Return ("✅ Email successfully sent to " +:+ to
               +:+ (if truthy cc then " (CC: " +:+ default "" cc +:+ ")" else "")
               +:+ (if truthy bcc then " (BCC: " +:+ default "" bcc +:+ ")" else ""))
   | Throw error => Return ("❌ Failed to send email: " +:+ err_message error)
   end,
   box ++ [mailOptions_of env to subject message cc bcc]).
Proof.
  unfold emailToolkit_func, try_catch, bind, transporter_sendMail , ret, mailOptions_of.
  destruct (sendMail _ _); reflexivity.
Qed.

Lemma emailToolkit_func_returns to subject message cc bcc box :
  exists answer,
    (emailToolkit_func env sendMail to subject message cc bcc box).1 = Return answer.
Proof.
  rewrite emailToolkit_func_unfold; simpl.
  destruct (sendMail _ _); eauto.
Qed.
End EmailFacts.

(** C7.  Without [LINKEDIN_ACCESS_TOKEN] or [LINKEDIN_PERSON_ID] the tool
    [post_to_linkedin] makes no HTTP call and returns a text that names the
    missing setting; when the mail transport rejects the mail, as it does
    without [EMAIL_USER], the tool [send_email] returns a text that carries the
    transport's message.  Neither tool ever throws, whatever the settings and
    whatever the transports do. *)
Theorem credential_errors_come_back_as_text
    (env : gmap string string)
    (axios_post : LinkedIn.HttpCall -> LinkedIn.AxiosOutcome)
    (sendMail : Email.Transporter -> Email.MailOptions -> Completion unit)
    (text : string) (visibility : option LinkedIn.Visibility) (net : LinkedIn.Net)
    (to subject message : string) (cc bcc : option string) (box : Email.Outbox)
    (error : Error) :
  falsy (env !! "LINKEDIN_ACCESS_TOKEN") || falsy (env !! "LINKEDIN_PERSON_ID") = true ->
  falsy (env !! "EMAIL_USER") = true ->
  sendMail (Email.transporter env) (Email.mailOptions_of env to subject message cc bcc)
  = Throw error ->
  LinkedIn.postToLinkedInTool_func env axios_post text visibility net
  = (Return ("❌ Failed to post to LinkedIn: " +:+ LinkedIn.missing_setting env), net)
  /\ (Email.emailToolkit_func env sendMail to subject message cc bcc box).1
     = Return ("❌ Failed to send email: " +:+ err_message error)
  /\ (forall env' axios_post' text' visibility' net',
        exists answer,
          (LinkedIn.postToLinkedInTool_func env' axios_post' text' visibility' net').1
          = Return answer)
  /\ (forall env' sendMail' to' subject' message' cc' bcc' box',
        exists answer,
          (Email.emailToolkit_func env' sendMail' to' subject' message' cc' bcc' box').1
          = Return answer).
Proof.
  intros Hlinkedin Hemail Hsend. repeat apply conj.
  - unfold LinkedIn.postToLinkedInTool_func, try_catch, bind.
    rewrite (postToLinkedIn_missing_setting env axios_post text visibility net Hlinkedin).
    reflexivity.
  - rewrite emailToolkit_func_unfold; simpl. now rewrite Hsend.
  - intros. apply postToLinkedInTool_func_returns.
  - intros. apply emailToolkit_func_returns.
Qed.

Lemma credential_errors_come_back_as_text_witness :
  let env : gmap string string := {[ "LINKEDIN_ACCESS_TOKEN" := "token" ]} in
  (falsy (env !! "LINKEDIN_PERSON_ID") = true /\ falsy (env !! "EMAIL_USER") = true)
  /\ LinkedIn.postToLinkedInTool_func env Scenario.accepts_posts "Hello" None []
     = (Return "❌ Failed to post to LinkedIn: LINKEDIN_PERSON_ID environment variable is not set",
        [])
  /\ (Email.emailToolkit_func env Scenario.needs_login
        "a@example.com" "Hi" "Hello" None None []).1
     = Return "❌ Failed to send email: Missing credentials for PLAIN".
Proof.
  split; [split; reflexivity|].
  pose proof (credential_errors_come_back_as_text
                {[ "LINKEDIN_ACCESS_TOKEN" := "token" ]}
                Scenario.accepts_posts Scenario.needs_login
                "Hello" None [] "a@example.com" "Hi" "Hello" None None []
                (newError "Missing credentials for PLAIN")
                eq_refl eq_refl eq_refl) as (H1 & H2 & _).
  split; [exact H1|exact H2].
Defined.

(** With nothing set at all, the access token is the one reported. *)
Example post_to_linkedin_without_settings :
  LinkedIn.postToLinkedInTool_func ∅ Scenario.accepts_posts "Hello" None []
  = (Return "❌ Failed to post to LinkedIn: LINKEDIN_ACCESS_TOKEN environment variable is not set",
     []).
Proof. reflexivity. Qed.

(** With both settings the post goes out. *)
Example post_to_linkedin_with_settings :
  let env : gmap string string :=
    {[ "LINKEDIN_ACCESS_TOKEN" := "token"; "LINKEDIN_PERSON_ID" := "abc" ]} in
  let out := LinkedIn.postToLinkedInTool_func env Scenario.accepts_posts "Hello" None [] in
  is_return out.1 = true
  /\ map (fun c => LinkedIn.author (LinkedIn.call_data c)) out.2 = ["urn:li:person:abc"].
Proof. vm_compute. split; reflexivity. Qed.

(** With credentials the mail goes out and the answer confirms it. *)
Example send_email_with_credentials :
  let env : gmap string string :=
    {[ "EMAIL_USER" := "bot@example.com"; "EMAIL_PASS" := "app-password" ]} in
  (Email.emailToolkit_func env Scenario.needs_login
     "a@example.com" "Hi" "Hello" (Some "b@example.com") None []).1
  = Return "✅ Email successfully sent to a@example.com (CC: b@example.com)".
Proof. vm_compute. reflexivity. Qed.

(** ** More on the agent turn *)

Section AgentMore.
Import Agent.
Variable env : gmap string string.
Variable backend : Backend.

Lemma runAgent_each_cons text rest w :
  runAgent_each env backend (text :: rest) w =
  ((runAgent env backend text w).1
     :: (runAgent_each env backend rest (runAgent env backend text w).2).1,
   (runAgent_each env backend rest (runAgent env backend text w).2).2).
Proof.
  simpl. destruct (runAgent env backend text w) as [r w1]; simpl.
  destruct (runAgent_each env backend rest w1); reflexivity.
Qed.

(** The sizes of the requests of calls that all complete, from a history of
    [n] turns on. *)
Lemma runAgent_each_sizes texts : forall replies w w',
  runAgent_each env backend texts w = (map Return replies, w') ->
  exists sent,
    requests w' = requests w ++ sent
    /\ map (fun r => length (req_messages r)) sent
       = map (fun i => length (history w) + 2 * i + 1) (seq 0 (length texts)).
Proof.
  induction texts as [|text rest IH]; intros replies w w' Hrun.
  - injection Hrun as _ <-. exists []. now rewrite app_nil_r.
  - rewrite runAgent_each_cons in Hrun.
    destruct replies as [|reply replies]; [discriminate|].
    injection Hrun as Hr Hrs Hw.
    rewrite runAgent_unfold in Hr, Hrs, Hw; simpl in Hr, Hrs, Hw.
    destruct (backend (length (requests w)) (request_of text w)) as [res|e];
      [|discriminate].
    simpl in Hr, Hrs, Hw.
    match type of Hw with
    | (runAgent_each _ _ _ ?w1).2 = _ =>
        destruct (IH replies w1 w') as (sent & Hsent & Hsizes);
          [apply injective_projections; simpl; assumption|]
    end.
    simpl in Hsent, Hsizes.
    exists (request_of text w :: sent). split.
    + rewrite Hsent, <- app_assoc. reflexivity.
    + simpl. rewrite length_app; simpl. f_equal; [lia|].
      rewrite Hsizes, <- seq_shift, map_map.
      apply map_ext. intros i. rewrite !length_app; simpl. lia.
Qed.

Lemma replayed_grow w h :
  replayed w ->
  Forall (fun r => req_messages r `prefix_of` history w ++ h) (requests w).
Proof.
  unfold replayed. intros H. eapply Forall_impl; [exact H|].
  intros r Hr. simpl in Hr.
  etransitivity; [exact Hr|]. now apply prefix_app_r.
Qed.

Lemma tick_replayed t l :
  replayed (world l) -> replayed (world (tick env backend t l)).
Proof.
  intros H. destruct t as [text|call]; simpl.
  - unfold runAgent_until_await, bind, push, modify, gets, invoke; simpl.
    unfold replayed; simpl. apply Forall_app. split.
    + now apply replayed_grow.
    + constructor; [reflexivity|constructor].
  - destruct (waiting l !! call) as [[res|e]|]; simpl; try assumption.
    unfold replayed; simpl. now apply replayed_grow.
Qed.

Lemma serial_step text rest l :
  ticks env backend (serial (started l) (text :: rest)) l
  = ticks env backend (serial (S (started l)) rest)
      (ticks env backend [Arrive text; Resume (started l)] l).
Proof. reflexivity. Qed.

Lemma tick_serial_started text l :
  started (ticks env backend [Arrive text; Resume (started l)] l) = S (started l).
Proof.
  unfold ticks; cbn [fold_left tick].
  destruct (runAgent_until_await env backend text (world l)) as [pending w1].
  cbn [world waiting settled started]. rewrite lookup_insert_eq.
  destruct (bind (settle pending) runAgent_after_await w1) as [r w2].
  reflexivity.
Qed.

Lemma ticks_serial texts : forall l,
  waiting l = ∅ ->
  let l' := ticks env backend (serial (started l) texts) l in
  let out := runAgent_each env backend texts (world l) in
  world l' = out.2
  /\ settled l' = settled l ++ zip (seq (started l) (length texts)) out.1
  /\ waiting l' = ∅.
Proof.
  induction texts as [|text rest IH]; intros l Hempty.
  - simpl. now rewrite app_nil_r.
  - cbv zeta. rewrite serial_step, runAgent_each_cons.
    destruct (tick_serial env backend text l) as (Hw & Hs & Hwait).
    pose proof (tick_serial_started text l) as Hst.
    set (l1 := ticks env backend [Arrive text; Resume (started l)] l) in *.
    assert (Hempty1 : waiting l1 = ∅).
    { rewrite Hwait, Hempty. apply delete_empty. }
    rewrite <- Hst.
    destruct (IH l1 Hempty1) as (Hw' & Hs' & Hwait').
    cbv zeta in Hw', Hs', Hwait'. rewrite Hw in Hw', Hs'.
    repeat split; [exact Hw'| |exact Hwait'].
    rewrite Hs', Hs, <- app_assoc, Hst. reflexivity.
Qed.
End AgentMore.

(** X1.  When the request of a call is rejected, [runAgent] is rejected with
    the same error and the human turn it pushed stays in the history without
    an answer; the next call sends it along, right before its own turn. *)
Theorem runAgent_failure_leaves_question
    (env : gmap string string) (backend : Agent.Backend)
    (text next : string) (w : Agent.World) (e : Error) :
  backend (length (Agent.requests w)) (Agent.request_of text w) = Throw e ->
  let out := Agent.runAgent env backend text w in
  out.1 = Throw e
  /\ Agent.history out.2 = Agent.history w ++ [Agent.HumanMessage text]
  /\ last (Agent.requests (Agent.runAgent env backend next out.2).2)
     = Some {| Agent.req_model := "gemini-2.5-flash";
               Agent.req_tools := [];
               Agent.req_messages :=
                 Agent.history w
                 ++ [Agent.HumanMessage text; Agent.HumanMessage next] |}.
Proof.
  intros Hfail. cbv zeta.
  rewrite (runAgent_unfold env backend text w), Hfail.
  cbn [fst snd Agent.history]. repeat split.
  rewrite runAgent_unfold. cbv zeta.
  match goal with
  | |- context [match ?b with Return _ => _ | Throw _ => _ end] => destruct b
  end; cbn [snd Agent.requests]; rewrite last_snoc;
    unfold Agent.request_of; cbn [Agent.history]; now rewrite <- app_assoc.
Qed.

Lemma runAgent_failure_leaves_question_witness :
  Scenario.fails_second 1
    (Agent.request_of "b"
       (Agent.runAgent ∅ Scenario.fails_second "a" Agent.init).2)
  = Throw (newError "fetch failed")
  /\ Agent.history
       (Agent.runAgent ∅ Scenario.fails_second "b"
          (Agent.runAgent ∅ Scenario.fails_second "a" Agent.init).2).2
     = [Agent.HumanMessage "a"; Agent.AIMessage (Agent.Text "ok"); Agent.HumanMessage "b"].
Proof.
  split; [reflexivity|].
  exact (proj1 (proj2 (runAgent_failure_leaves_question ∅ Scenario.fails_second
                         "b" "c"
                         (Agent.runAgent ∅ Scenario.fails_second "a" Agent.init).2
                         (newError "fetch failed") eq_refl))).
Defined.

(** X2.  Every call sends the whole history again: for calls made one after
    the other that all complete, from a history of [n] turns, the request of
    the call number [i] (counting from 0) carries [n + 2 i + 1] messages. *)
Theorem runAgent_requests_grow_by_two
    (env : gmap string string) (backend : Agent.Backend)
    (texts : list string) (replies : list Agent.MessageContent)
    (w w' : Agent.World) :
  Agent.runAgent_each env backend texts w = (map Return replies, w') ->
  map (fun r => length (Agent.req_messages r))
      (drop (length (Agent.requests w)) (Agent.requests w'))
  = map (fun i => length (Agent.history w) + 2 * i + 1) (seq 0 (length texts)).
Proof.
  intros Hrun.
  destruct (runAgent_each_sizes env backend texts replies w w' Hrun)
    as (sent & Hsent & Hsizes).
  rewrite Hsent, drop_app_length. exact Hsizes.
Qed.

Lemma runAgent_requests_grow_by_two_witness :
  map (fun r => length (Agent.req_messages r))
      (Agent.requests
         (Agent.runAgent_each ∅ (Scenario.answers "ok") ["a"; "b"; "c"] Agent.init).2)
  = [1; 3; 5].
Proof.
  exact (runAgent_requests_grow_by_two ∅ (Scenario.answers "ok")
           ["a"; "b"; "c"] (replicate 3 (Agent.Text "ok")) Agent.init _ eq_refl).
Defined.

(** X3.  Whatever the interleaving of calls, every request that was sent
    carried a beginning of the history as it is now: what the model was shown
    is never rewritten afterwards. *)
Theorem requests_replay_history
    (env : gmap string string) (backend : Agent.Backend)
    (schedule : list Agent.Tick) (l : Agent.Loop) :
  Agent.replayed (Agent.world l) ->
  Agent.replayed (Agent.world (Agent.ticks env backend schedule l)).
Proof.
  revert l. induction schedule as [|t ts IH]; intros l H; [exact H|].
  apply (IH (Agent.tick env backend t l)). now apply tick_replayed.
Qed.

Lemma requests_replay_history_witness :
  Agent.replayed Agent.init
  /\ Agent.replayed
       (Agent.world
          (Agent.ticks ∅ Scenario.counts_messages
             [Agent.Arrive "a"; Agent.Arrive "b"; Agent.Resume 1; Agent.Resume 0]
             (Agent.boot Agent.init))).
Proof.
  split; [constructor|].
  exact (requests_replay_history ∅ Scenario.counts_messages
           [Agent.Arrive "a"; Agent.Arrive "b"; Agent.Resume 1; Agent.Resume 0]
           (Agent.boot Agent.init) (Forall_nil_2 _)).
Defined.

(** X4.  When every call is resumed before the next one arrives, the event
    loop does what calling [runAgent] in a row does: the same store, the same
    outcomes in the same order, and no call left waiting. *)
Theorem serial_schedule_is_runAgent_each
    (env : gmap string string) (backend : Agent.Backend)
    (texts : list string) (w : Agent.World) :
  let l := Agent.ticks env backend (Agent.serial 0 texts) (Agent.boot w) in
  let out := Agent.runAgent_each env backend texts w in
  Agent.world l = out.2
  /\ map snd (Agent.settled l) = out.1
  /\ map fst (Agent.settled l) = seq 0 (length texts)
  /\ Agent.waiting l = ∅.
Proof.
  destruct (ticks_serial env backend texts (Agent.boot w) eq_refl)
    as (Hw & Hs & Hwait).
  cbv zeta in *. simpl in Hw, Hs, Hwait.
  pose proof (runAgent_each_length env backend texts w) as Hlen.
  repeat split; [exact Hw| | |exact Hwait]; rewrite Hs.
  - rewrite snd_zip; [reflexivity|]. rewrite length_seq, Hlen. lia.
  - rewrite fst_zip; [reflexivity|]. rewrite length_seq, Hlen. lia.
Qed.

Section StatelessMore.
Import AgentStateless.
Variable backend : nat -> string -> Completion Agent.AIMessageChunk.

Lemma stateless_runAgent_unfold text w :
  runAgent backend text w =
  (match backend (length w) text with
   | Return res => Return (Agent.content res)
   | Throw e => Throw e
   end, w ++ [text]).
Proof.
  unfold runAgent, invoke, bind, ret. destruct (backend _ _); reflexivity.
Qed.

Lemma stateless_runAgent_each_spec texts : forall w,
  (runAgent_each backend texts w).2 = w ++ texts
  /\ forall i text,
       texts !! i = Some text ->
       (runAgent_each backend texts w).1 !! i
       = Some match backend (length w + i) text with
              | Return res => Return (Agent.content res)
              | Throw e => Throw e
              end.
Proof.
  induction texts as [|t rest IH]; intros w.
  - simpl. rewrite app_nil_r. split; [reflexivity|]. intros i text H. discriminate.
  - simpl. rewrite stateless_runAgent_unfold.
    destruct (IH (w ++ [t])) as [Hw Hr].
    destruct (runAgent_each backend rest (w ++ [t])) as [rs w2]; simpl in *.
    split; [rewrite Hw, <- app_assoc; reflexivity|].
    intros [|i] text H; simpl in *.
    + injection H as <-. now rewrite Nat.add_0_r.
    + rewrite (Hr i text H), length_app; simpl.
      now replace (length w + 1 + i) with (length w + S i) by lia.
Qed.
End StatelessMore.

(** X5.  The stateless agent sends each text alone: after any calls the
    requests made are exactly the texts given, in order, whatever the calls'
    outcomes, and the answer to a text is decided by that text and its rank
    among the requests, never by the texts before it. *)
Theorem stateless_runAgent_keeps_no_history
    (backend : nat -> string -> Completion Agent.AIMessageChunk)
    (texts : list string) (w : AgentStateless.World) :
  (AgentStateless.runAgent_each backend texts w).2 = w ++ texts
  /\ forall i text,
       texts !! i = Some text ->
       (AgentStateless.runAgent_each backend texts w).1 !! i
       = Some match backend (length w + i) text with
              | Return res => Return (Agent.content res)
              | Throw e => Throw e
              end.
Proof. apply stateless_runAgent_each_spec. Qed.

Lemma stateless_runAgent_keeps_no_history_witness :
  AgentStateless.runAgent_each
    (fun n text =>
       Return {| Agent.content := Agent.Text (text +:+ "!"); Agent.tool_calls := [] |})
    ["a"; "b"] ["earlier"]
  = ([Return (Agent.Text "a!"); Return (Agent.Text "b!")], ["earlier"; "a"; "b"]).
Proof.
  pose proof (stateless_runAgent_keeps_no_history
                (fun n text => Return {| Agent.content := Agent.Text (text +:+ "!");
                                         Agent.tool_calls := [] |})
                ["a"; "b"] ["earlier"]) as [Hlog _].
  apply injective_projections; [reflexivity|exact Hlog].
Defined.

(** ** More on the Slack adapter *)

(** X6.  When [runAgent] returns a reply, a handler passes exactly that reply
    to [say], once, and ends as that [say] ends; the agent's store is as the
    call left it, also when [say] fails.  (A [message] event with an empty
    text never reaches [runAgent].) *)
Theorem handlers_say_reply_once
    {W R : Type} (runAgent : string -> Async W R)
    (post : nat -> R -> Completion unit)
    (text : string) (reply : R) (c : Slack.Channel) (w : W) :
  runAgent text (Slack.agent c) = (Return reply, w) ->
  Slack.on_app_mention runAgent post {| Slack.mention_text := text |} c
  = (post (length (Slack.said c)) reply,
     {| Slack.agent := w; Slack.said := Slack.said c ++ [reply] |})
  /\ Slack.on_message runAgent post {| Slack.message_text := Some text |} c
     = if bool_decide (text = "") then (Return tt, c)
       else (post (length (Slack.said c)) reply,
             {| Slack.agent := w; Slack.said := Slack.said c ++ [reply] |}).
Proof.
  intros Hrun. split.
  - rewrite on_app_mention_unfold, Hrun. reflexivity.
  - case_bool_decide as Htext.
    + apply on_message_drops_textless. subst text. reflexivity.
    + rewrite on_message_with_text by assumption.
      rewrite on_app_mention_unfold, Hrun. reflexivity.
Qed.

Lemma handlers_say_reply_once_witness :
  let c := {| Slack.agent := Agent.init; Slack.said := [Agent.Text "earlier"] |} in
  let out :=
    Slack.on_app_mention (Agent.runAgent ∅ (Scenario.answers "hi there"))
      Scenario.channel_gone {| Slack.mention_text := "hello" |} c in
  out.1 = Throw (newError "channel_not_found")
  /\ Slack.said out.2 = [Agent.Text "earlier"; Agent.Text "hi there"]
  /\ Agent.history (Slack.agent out.2)
     = [Agent.HumanMessage "hello"; Agent.AIMessage (Agent.Text "hi there")].
Proof.
  pose proof (proj1 (handlers_say_reply_once
                (Agent.runAgent ∅ (Scenario.answers "hi there"))
                Scenario.channel_gone "hello" (Agent.Text "hi there")
                {| Slack.agent := Agent.init; Slack.said := [Agent.Text "earlier"] |}
                _ eq_refl)) as H.
  cbv zeta. rewrite H. repeat split.
Defined.

(** ** More on document indexing and search *)

Lemma string_length_app (a b : string) :
  String.length (a +:+ b) = String.length a + String.length b.
Proof. induction a as [|c a IH]; simpl; [reflexivity|now rewrite IH]. Qed.

Lemma string_concat_length (sep : string) (l : list string) :
  String.length (String.concat sep l)
  = sum_list (map String.length l) + String.length sep * (length l - 1).
Proof.
  induction l as [|x l IH]; [simpl; lia|].
  destruct l as [|y l]; [simpl; lia|].
  change (String.concat sep (x :: y :: l))
    with (x +:+ sep +:+ String.concat sep (y :: l)).
  rewrite !string_length_app, IH. simpl. lia.
Qed.

(** X8.  A [loadDocument] that fails, because the file cannot be read or
    because the index rejects the chunks, leaves [vectorStore] as it was: a
    search after it is answered from the last load that succeeded. *)
Theorem loadDocument_failure_keeps_vectorStore
    {Chroma : Type}
    (readFileSync : string -> Completion string)
    (createDocuments : Rag.SplitterOptions -> list string -> list Rag.Document)
    (fromDocuments : list Rag.Document -> Rag.ChromaArgs -> Completion Chroma)
    (path : string) (s s' : Rag.Store) (e : Error) :
  Rag.loadDocument readFileSync createDocuments fromDocuments path s = (Throw e, s') ->
  s' = s
  /\ (readFileSync path = Throw e
      \/ exists text,
           readFileSync path = Return text
           /\ fromDocuments
                (createDocuments {| Rag.chunkSize := 500; Rag.chunkOverlap := 100 |}
                   [text])
                {| Rag.collectionName := "docs"; Rag.url := "http://localhost:8000" |}
              = Throw e).
Proof.
  intros Hload. split; [eapply loadDocument_failed; eassumption|].
  rewrite loadDocument_unfold in Hload.
  destruct (readFileSync path) as [text|e1]; [|left; congruence].
  right. exists text. split; [reflexivity|].
  destruct (fromDocuments _ _); congruence.
Qed.

Lemma loadDocument_failure_keeps_vectorStore_witness :
  let loaded :=
    (Rag.loadDocument Scenario.one_file Scenario.sliding Scenario.memory_index
       "notes.txt" Rag.unloaded).2 in
  is_Some (Rag.vectorStore loaded)
  /\ (Rag.loadDocument Scenario.one_file Scenario.sliding Scenario.memory_index
        "missing.txt" loaded).2 = loaded.
Proof.
  split; [vm_compute; eauto|].
  exact (proj1 (loadDocument_failure_keeps_vectorStore
                  Scenario.one_file Scenario.sliding Scenario.memory_index
                  "missing.txt" _ _ _ ltac:(vm_compute; reflexivity))).
Defined.

(** X10.  [searchDocs] does not touch [vectorStore], and the text it returns
    is the chunks with two line breaks between neighbours and nothing around
    them: nothing for no chunk, the chunk itself for one, and otherwise the
    first chunk, two line breaks and the text of the others.  So its length is
    the chunks' lengths plus 2 for every chunk after the first. *)
Theorem searchDocs_joins_chunks
    {Chroma : Type}
    (similaritySearch : Chroma -> string -> nat -> Completion (list Rag.Document))
    (query : string) (vs : Chroma) (results : list Rag.Document) :
  similaritySearch vs query 3 = Return results ->
  let joined :=
    fix joined (chunks : list string) : string :=
      match chunks with
      | [] => ""
      | [chunk] => chunk
      | chunk :: others => chunk +:+ nl +:+ nl +:+ joined others
      end in
  Rag.searchDocs similaritySearch query {| Rag.vectorStore := Some vs |}
  = (Return (joined (map Rag.pageContent results)),
     {| Rag.vectorStore := Some vs |})
  /\ String.length (joined (map Rag.pageContent results))
     = sum_list (map (fun d => String.length (Rag.pageContent d)) results)
       + 2 * (length results - 1).
Proof.
  intros Hsearch joined.
  assert (Hjoin : forall chunks,
             joined chunks = String.concat (nl +:+ nl) chunks).
  { induction chunks as [|chunk [|other others] IH]; try reflexivity.
    change (joined (chunk :: other :: others))
      with (chunk +:+ nl +:+ nl +:+ joined (other :: others)).
    rewrite IH. reflexivity. }
  split.
  - unfold Rag.searchDocs, bind, gets, settle, ret; simpl.
    rewrite Hsearch, Hjoin. reflexivity.
  - rewrite Hjoin, string_concat_length, map_map, length_map. reflexivity.
Qed.

Lemma searchDocs_joins_chunks_witness :
  (Rag.searchDocs Scenario.first_stored "handbook"
     {| Rag.vectorStore :=
          Some [{| Rag.pageContent := "ab" |}; {| Rag.pageContent := "cde" |}] |}).1
  = Return ("ab" +:+ nl +:+ nl +:+ "cde").
Proof.
  exact (f_equal fst (proj1 (searchDocs_joins_chunks Scenario.first_stored "handbook"
           [{| Rag.pageContent := "ab" |}; {| Rag.pageContent := "cde" |}]
           _ eq_refl))).
Defined.

(** ** More on the LinkedIn tools of the publisher file *)

Section LinkedInMore.
Import LinkedIn.
Variable env : gmap string string.
Variable axios_post : HttpCall -> AxiosOutcome.
Variable generate : nat -> string -> Completion string.
Variable inherited : string -> option string.

Lemma falsy_set (x : string) : x <> "" -> falsy (Some x) = false.
Proof. intros H. simpl. now apply bool_decide_eq_false_2. Qed.

Lemma generateLinkedInPost_unfold topic tone length st :
  generateLinkedInPost generate inherited topic tone length st =
  let prompt := prompt_for inherited topic (default "professional" tone)
                  (default "medium" length) in
  (match generate (List.length (asked st)) prompt with
   | Return post => Return post
   | Throw error => Throw (newError ("Failed to generate post: " +:+ err_message error))
   end,
   {| asked := asked st ++ [prompt]; calls := calls st |}).
Proof.
  unfold generateLinkedInPost, try_catch, bind, postGenerator_invoke, ret, throw.
  cbv zeta. destruct (generate _ _); reflexivity.
Qed.

Lemma guide_for_fallback length :
  length <> "short" -> length <> "long" -> inherited length = None ->
  guide_for inherited length = guide_for inherited "medium".
Proof.
  intros Hs Hl Hi. unfold guide_for, lengthGuide; simpl.
  rewrite lookup_insert_ne by congruence.
  destruct (decide (length = "medium")) as [->|Hm]; [reflexivity|].
  rewrite lookup_insert_ne by congruence.
  rewrite lookup_insert_ne by congruence.
  rewrite lookup_empty, Hi.
  rewrite lookup_insert_ne by discriminate.
  rewrite lookup_insert_eq. reflexivity.
Qed.

Lemma generateAndPostLinkedInTool_func_returns topic tone length visibility autoPost st :
  exists answer,
    (generateAndPostLinkedInTool_func env axios_post generate inherited
       topic tone length visibility autoPost st).1 = Return answer.
Proof.
  unfold generateAndPostLinkedInTool_func, try_catch, bind.
  destruct (generateLinkedInPost generate inherited topic tone length st)
    as [[post|e] st1]; simpl; [|eauto].
  destruct (wants_post autoPost); simpl; [|eauto].
  destruct (in_net (postToLinkedIn env axios_post post visibility) st1)
    as [[r|e] st2]; simpl; eauto.
Qed.
End LinkedInMore.

(** X11.  With both settings present, [post_to_linkedin] makes exactly one
    HTTP call, to the [ugcPosts] endpoint, with the token as bearer, the person
    as author and [PUBLIC] when no visibility is given; it answers with the
    confirmation, or with a text for the failure: the status and data of a
    refused call, or the message of a call that got no response, which then
    carries the words "Failed to post to LinkedIn" twice. *)
Theorem post_to_linkedin_makes_one_call
    (env : gmap string string)
    (axios_post : LinkedIn.HttpCall -> LinkedIn.AxiosOutcome)
    (text token person : string) (visibility : option LinkedIn.Visibility)
    (net : LinkedIn.Net) :
  env !! "LINKEDIN_ACCESS_TOKEN" = Some token -> token <> "" ->
  env !! "LINKEDIN_PERSON_ID" = Some person -> person <> "" ->
  let call :=
    {| LinkedIn.call_url := "https://api.linkedin.com/v2/ugcPosts";
       LinkedIn.call_data :=
         {| LinkedIn.author := "urn:li:person:" +:+ person;
            LinkedIn.lifecycleState := "PUBLISHED";
            LinkedIn.shareCommentary := text;
            LinkedIn.shareMediaCategory := "NONE";
            LinkedIn.memberNetworkVisibility :=
              LinkedIn.visibility_text (default LinkedIn.PUBLIC visibility) |};
       LinkedIn.call_headers :=
         {| LinkedIn.Authorization := "Bearer " +:+ token;
            LinkedIn.ContentType := "application/json";
            LinkedIn.RestliProtocolVersion := "2.0.0" |} |} in
  LinkedIn.postToLinkedInTool_func env axios_post text visibility net
  = (Return
       match axios_post call with
       | LinkedIn.Responded postId =>
           "✅ LinkedIn post published successfully! Post ID: " +:+ postId
           +:+ String "010" "View it at: https://www.linkedin.com/feed/update/"
           +:+ postId
       | LinkedIn.Refused status data_json =>
           "❌ Failed to post to LinkedIn: LinkedIn API error: "
           +:+ pretty status +:+ " - " +:+ data_json
       | LinkedIn.Failed message =>
           "❌ Failed to post to LinkedIn: Failed to post to LinkedIn: " +:+ message
       end,
     net ++ [call]).
Proof.
  intros Htoken Hne1 Hperson Hne2. cbv zeta.
  unfold LinkedIn.postToLinkedInTool_func, LinkedIn.postToLinkedIn,
    try_catch, bind, modify, ret, throw.
  rewrite Htoken, Hperson, !falsy_set by assumption. simpl.
  destruct (axios_post _); reflexivity.
Qed.

Lemma post_to_linkedin_makes_one_call_witness :
  (LinkedIn.postToLinkedInTool_func Scenario.linkedin_env Scenario.unreachable
     "Hello" None []).1
  = Return "❌ Failed to post to LinkedIn: Failed to post to LinkedIn: connect ETIMEDOUT"
  /\ (LinkedIn.postToLinkedInTool_func Scenario.linkedin_env Scenario.refuses_token
        "Hello" None []).1
     = Return "❌ Failed to post to LinkedIn: LinkedIn API error: 401 - {}".
Proof.
  split.
  - exact (f_equal fst (post_to_linkedin_makes_one_call Scenario.linkedin_env
             Scenario.unreachable "Hello" "token" "abc" None []
             eq_refl ltac:(discriminate) eq_refl ltac:(discriminate))).
  - exact (f_equal fst (post_to_linkedin_makes_one_call Scenario.linkedin_env
             Scenario.refuses_token "Hello" "token" "abc" None []
             eq_refl ltac:(discriminate) eq_refl ltac:(discriminate))).
Defined.

(** X12.  [generateLinkedInPost] treats a length it has no guide for like
    [medium], and a missing tone or length like [professional] and [medium]:
    the prompt sent, the outcome and the store are the same. *)
Theorem generateLinkedInPost_falls_back_to_medium
    (generate : nat -> string -> Completion string)
    (inherited : string -> option string)
    (topic length : string) (tone : option string) (st : LinkedIn.Studio) :
  length <> "short" -> length <> "long" -> inherited length = None ->
  LinkedIn.generateLinkedInPost generate inherited topic tone (Some length) st
  = LinkedIn.generateLinkedInPost generate inherited topic tone None st
  /\ LinkedIn.generateLinkedInPost generate inherited topic None None st
     = LinkedIn.generateLinkedInPost generate inherited topic
         (Some "professional") (Some "medium") st.
Proof.
  intros Hs Hl Hi. split; [|reflexivity].
  rewrite !generateLinkedInPost_unfold. cbv zeta. simpl default.
  unfold LinkedIn.prompt_for. now rewrite guide_for_fallback.
Qed.

Lemma generateLinkedInPost_falls_back_to_medium_witness :
  Scenario.object_members "huge" = None
  /\ LinkedIn.generateLinkedInPost (Scenario.writes "post")
       Scenario.object_members "AI" None (Some "huge")
       {| LinkedIn.asked := []; LinkedIn.calls := [] |}
     = LinkedIn.generateLinkedInPost (Scenario.writes "post")
         Scenario.object_members "AI" None None
         {| LinkedIn.asked := []; LinkedIn.calls := [] |}.
Proof.
  split; [reflexivity|].
  exact (proj1 (generateLinkedInPost_falls_back_to_medium (Scenario.writes "post")
                  Scenario.object_members "AI" "huge" None
                  {| LinkedIn.asked := []; LinkedIn.calls := [] |}
                  ltac:(discriminate) ltac:(discriminate) eq_refl)).
Defined.

(** X13.  When the generator fails, [generate_linkedin_post] does not throw:
    it answers with the generator's message, behind the words "Failed to
    generate post" twice, and it has asked the generator once. *)
Theorem generate_linkedin_post_failure_text
    (generate : nat -> string -> Completion string)
    (inherited : string -> option string)
    (topic : string) (tone length : option string) (st : LinkedIn.Studio)
    (error : Error) :
  generate (List.length (LinkedIn.asked st))
    (LinkedIn.prompt_for inherited topic (default "professional" tone)
       (default "medium" length))
  = Throw error ->
  LinkedIn.generateLinkedInPostTool_func generate inherited topic tone length st
  = (Return ("❌ Failed to generate post: Failed to generate post: "
             +:+ err_message error),
     {| LinkedIn.asked :=
          LinkedIn.asked st
          ++ [LinkedIn.prompt_for inherited topic (default "professional" tone)
                (default "medium" length)];
        LinkedIn.calls := LinkedIn.calls st |}).
Proof.
  intros Hfail.
  unfold LinkedIn.generateLinkedInPostTool_func, try_catch, bind.
  rewrite generateLinkedInPost_unfold. cbv zeta. rewrite Hfail. reflexivity.
Qed.

Lemma generate_linkedin_post_failure_text_witness :
  (LinkedIn.generateLinkedInPostTool_func Scenario.out_of_quota
     Scenario.object_members "AI" None None
     {| LinkedIn.asked := []; LinkedIn.calls := [] |}).1
  = Return "❌ Failed to generate post: Failed to generate post: quota exceeded".
Proof.
  exact (f_equal fst (generate_linkedin_post_failure_text Scenario.out_of_quota
           Scenario.object_members "AI" None None
           {| LinkedIn.asked := []; LinkedIn.calls := [] |}
           (newError "quota exceeded") eq_refl)).
Defined.

(** X14.  [generate_and_post_linkedin] publishes only when [autoPost] is the
    boolean [true] or the text [true]: for every other value, or none, no HTTP
    call is made, whatever the settings, the generator and the endpoint do, and
    the tool still answers with a text. *)
Theorem generate_and_post_needs_autoPost
    (env : gmap string string)
    (axios_post : LinkedIn.HttpCall -> LinkedIn.AxiosOutcome)
    (generate : nat -> string -> Completion string)
    (inherited : string -> option string)
    (topic : string) (tone length : option string)
    (visibility : option LinkedIn.Visibility)
    (autoPost : option LinkedIn.AutoPost) (st : LinkedIn.Studio) :
  LinkedIn.wants_post autoPost = false ->
  let out := LinkedIn.generateAndPostLinkedInTool_func env axios_post generate
               inherited topic tone length visibility autoPost st in
  LinkedIn.calls out.2 = LinkedIn.calls st
  /\ exists answer, out.1 = Return answer.
Proof.
  intros Hno. cbv zeta. split.
  - unfold LinkedIn.generateAndPostLinkedInTool_func, try_catch, bind.
    rewrite generateLinkedInPost_unfold. cbv zeta.
    destruct (generate _ _); simpl; [rewrite Hno|]; reflexivity.
  - apply generateAndPostLinkedInTool_func_returns.
Qed.

Lemma generate_and_post_needs_autoPost_witness :
  LinkedIn.wants_post (Some (LinkedIn.AutoText "True")) = false
  /\ LinkedIn.calls
       (LinkedIn.generateAndPostLinkedInTool_func Scenario.linkedin_env
          Scenario.accepts_posts (Scenario.writes "post")
          Scenario.object_members "AI" None None None
          (Some (LinkedIn.AutoText "True"))
          {| LinkedIn.asked := []; LinkedIn.calls := [] |}).2
     = [].
Proof.
  split; [reflexivity|].
  exact (proj1 (generate_and_post_needs_autoPost
                  Scenario.linkedin_env Scenario.accepts_posts (Scenario.writes "post")
                  Scenario.object_members "AI" None None None
                  (Some (LinkedIn.AutoText "True"))
                  {| LinkedIn.asked := []; LinkedIn.calls := [] |} eq_refl)).
Defined.

(** X15.  With [autoPost] set and a LinkedIn setting missing,
    [generate_and_post_linkedin] has the post generated first and only then
    fails on the setting: the generator was asked, no HTTP call is made, and
    the answer names the missing setting and does not hold the generated
    post. *)
Theorem generate_and_post_checks_settings_last
    (env : gmap string string)
    (axios_post : LinkedIn.HttpCall -> LinkedIn.AxiosOutcome)
    (generate : nat -> string -> Completion string)
    (inherited : string -> option string)
    (topic post : string) (tone length : option string)
    (visibility : option LinkedIn.Visibility)
    (autoPost : option LinkedIn.AutoPost) (st : LinkedIn.Studio) :
  LinkedIn.wants_post autoPost = true ->
  falsy (env !! "LINKEDIN_ACCESS_TOKEN") || falsy (env !! "LINKEDIN_PERSON_ID") = true ->
  generate (List.length (LinkedIn.asked st))
    (LinkedIn.prompt_for inherited topic (default "professional" tone)
       (default "medium" length))
  = Return post ->
  LinkedIn.generateAndPostLinkedInTool_func env axios_post generate inherited
    topic tone length visibility autoPost st
  = (Return ("❌ Failed to generate/post: " +:+ LinkedIn.missing_setting env),
     {| LinkedIn.asked :=
          LinkedIn.asked st
          ++ [LinkedIn.prompt_for inherited topic (default "professional" tone)
                (default "medium" length)];
        LinkedIn.calls := LinkedIn.calls st |}).
Proof.
  intros Hyes Hmissing Hgen.
  unfold LinkedIn.generateAndPostLinkedInTool_func, try_catch, bind.
  rewrite generateLinkedInPost_unfold. cbv zeta. rewrite Hgen, Hyes.
  unfold LinkedIn.in_net, zoom. cbn [LinkedIn.calls LinkedIn.asked].
  rewrite (postToLinkedIn_missing_setting env axios_post post visibility _ Hmissing).
  reflexivity.
Qed.

Lemma generate_and_post_checks_settings_last_witness :
  LinkedIn.generateAndPostLinkedInTool_func ∅ Scenario.accepts_posts
    (Scenario.writes "A fine post") Scenario.object_members
    "AI" None None None (Some (LinkedIn.AutoText "true"))
    {| LinkedIn.asked := []; LinkedIn.calls := [] |}
  = (Return "❌ Failed to generate/post: LINKEDIN_ACCESS_TOKEN environment variable is not set",
     {| LinkedIn.asked :=
          [LinkedIn.prompt_for Scenario.object_members "AI" "professional" "medium"];
        LinkedIn.calls := [] |}).
Proof.
  exact (generate_and_post_checks_settings_last ∅ Scenario.accepts_posts
           (Scenario.writes "A fine post") Scenario.object_members
           "AI" "A fine post" None None None (Some (LinkedIn.AutoText "true"))
           {| LinkedIn.asked := []; LinkedIn.calls := [] |}
           eq_refl eq_refl eq_refl).
Defined.

(** ** More on the LinkedIn tools of the second file *)

Section LinkedInDirectMore.
Import LinkedInDirect.
Variable env : gmap string string.
Variable axios_post : LinkedIn.HttpCall -> AxiosOutcome.
Variable generate : nat -> string -> Completion string.

(** The text [postToLinkedIn] returns for a missing setting. *)
Lemma postToLinkedIn_missing_setting_text text visibility net :
  falsy (env !! "LINKEDIN_ACCESS_TOKEN") || falsy (env !! "LINKEDIN_PERSON_ID") = true ->
  postToLinkedIn env axios_post text visibility net
  = (Return ("❌ Failed to post to LinkedIn: "
             +:+ (if falsy (env !! "LINKEDIN_ACCESS_TOKEN")
                  then "LINKEDIN_ACCESS_TOKEN not found in environment variables"
                  else "LINKEDIN_PERSON_ID not found in environment variables. Please set your LinkedIn user ID.")),
     net).
Proof.
  unfold postToLinkedIn, getLinkedInAccessToken, getLinkedInPersonId,
    try_catch, bind, settle, ret.
  destruct (falsy (env !! "LINKEDIN_ACCESS_TOKEN")); simpl; [reflexivity|].
  now intros ->.
Qed.
End LinkedInDirectMore.

(** X16.  The second file's [post_to_linkedin] always answers with a text
    that ends with the words "Posted Content:" and the text it was given,
    also when nothing was posted: [postToLinkedIn] there returns its failures
    as texts, so the tool's own [catch] never runs. *)
Theorem direct_post_always_shows_content
    (env : gmap string string)
    (axios_post : LinkedIn.HttpCall -> LinkedInDirect.AxiosOutcome)
    (text : string) (visibility : option LinkedIn.Visibility) (net : LinkedIn.Net) :
  exists result,
    (LinkedInDirect.postToLinkedIn env axios_post text
       (default LinkedIn.PUBLIC visibility) net).1 = Return result
    /\ (LinkedInDirect.linkedInDirectPostTool_func env axios_post text visibility net).1
       = Return (result +:+ String "010" (String "010" "📝 Posted Content:")
                 +:+ String "010" text).
Proof.
  destruct (postToLinkedIn_never_throws env axios_post text
              (default LinkedIn.PUBLIC visibility) net) as [result Hresult].
  exists result. split; [exact Hresult|].
  unfold LinkedInDirect.linkedInDirectPostTool_func, try_catch, bind, ret.
  destruct (LinkedInDirect.postToLinkedIn env axios_post text
              (default LinkedIn.PUBLIC visibility) net) as [[r|e] net'];
    simpl in *; congruence.
Qed.

(** X17.  Without the access token or the person id, the second file's
    [post_to_linkedin] makes no HTTP call; its answer names the setting that
    is missing, the token first, and still ends with the "Posted Content"
    lines. *)
Theorem direct_post_without_settings
    (env : gmap string string)
    (axios_post : LinkedIn.HttpCall -> LinkedInDirect.AxiosOutcome)
    (text : string) (visibility : option LinkedIn.Visibility) (net : LinkedIn.Net) :
  falsy (env !! "LINKEDIN_ACCESS_TOKEN") || falsy (env !! "LINKEDIN_PERSON_ID") = true ->
  LinkedInDirect.linkedInDirectPostTool_func env axios_post text visibility net
  = (Return ("❌ Failed to post to LinkedIn: "
             +:+ (if falsy (env !! "LINKEDIN_ACCESS_TOKEN")
                  then "LINKEDIN_ACCESS_TOKEN not found in environment variables"
                  else "LINKEDIN_PERSON_ID not found in environment variables. Please set your LinkedIn user ID.")
             +:+ String "010" (String "010" "📝 Posted Content:")
             +:+ String "010" text),
     net).
Proof.
  intros Hmissing.
  unfold LinkedInDirect.linkedInDirectPostTool_func, try_catch, bind, ret.
  rewrite (postToLinkedIn_missing_setting_text env axios_post text _ net Hmissing).
  simpl. reflexivity.
Qed.

Lemma direct_post_without_settings_witness :
  let env : gmap string string := {[ "LINKEDIN_ACCESS_TOKEN" := "token" ]} in
  LinkedInDirect.linkedInDirectPostTool_func env Scenario.accepts_direct_posts
    "Hello" None []
  = (Return ("❌ Failed to post to LinkedIn: LINKEDIN_PERSON_ID not found in environment variables. Please set your LinkedIn user ID."
             +:+ String "010" (String "010" "📝 Posted Content:")
             +:+ String "010" "Hello"),
     []).
Proof.
  exact (direct_post_without_settings {[ "LINKEDIN_ACCESS_TOKEN" := "token" ]}
           Scenario.accepts_direct_posts "Hello" None [] eq_refl).
Defined.

(** X18.  [create_linkedin_post] has the post generated before anything looks
    at the settings: with a setting missing the model was asked once, no HTTP
    call is made, and the answer is the failure text followed by the post that
    was generated and not published. *)
Theorem create_linkedin_post_generates_first
    (env : gmap string string)
    (axios_post : LinkedIn.HttpCall -> LinkedInDirect.AxiosOutcome)
    (generate : nat -> string -> Completion string)
    (topic post : string) (tone : option LinkedInDirect.Tone)
    (includeHashtags : option bool) (visibility : option LinkedIn.Visibility)
    (d : LinkedInDirect.Desk) :
  falsy (env !! "LINKEDIN_ACCESS_TOKEN") || falsy (env !! "LINKEDIN_PERSON_ID") = true ->
  generate (length (LinkedInDirect.prompts d))
    (LinkedInDirect.post_prompt topic tone (default true includeHashtags))
  = Return post ->
  LinkedInDirect.linkedInPostTool_func env axios_post generate
    topic tone includeHashtags visibility d
  = (Return ("❌ Failed to post to LinkedIn: "
             +:+ (if falsy (env !! "LINKEDIN_ACCESS_TOKEN")
                  then "LINKEDIN_ACCESS_TOKEN not found in environment variables"
                  else "LINKEDIN_PERSON_ID not found in environment variables. Please set your LinkedIn user ID.")
             +:+ nl +:+ nl +:+ "📝 Generated Post:" +:+ nl +:+ post),
     {| LinkedInDirect.prompts :=
          LinkedInDirect.prompts d
          ++ [LinkedInDirect.post_prompt topic tone (default true includeHashtags)];
        LinkedInDirect.posts := LinkedInDirect.posts d |}).
Proof.
  intros Hmissing Hgen.
  unfold LinkedInDirect.linkedInPostTool_func, try_catch, bind,
    LinkedInDirect.model_invoke, LinkedInDirect.in_posts, zoom, ret.
  cbv zeta. rewrite Hgen. cbn [LinkedInDirect.posts LinkedInDirect.prompts].
  rewrite (postToLinkedIn_missing_setting_text env axios_post post _ _ Hmissing).
  simpl. reflexivity.
Qed.

Lemma create_linkedin_post_generates_first_witness :
  let out :=
    LinkedInDirect.linkedInPostTool_func Scenario.nothing_set
      Scenario.accepts_direct_posts (Scenario.writes "A fine post") "AI" (Some LinkedInDirect.casual) None None
      {| LinkedInDirect.prompts := []; LinkedInDirect.posts := [] |} in
  out.1 = Return ("❌ Failed to post to LinkedIn: LINKEDIN_ACCESS_TOKEN not found in environment variables"
                  +:+ nl +:+ nl +:+ "📝 Generated Post:" +:+ nl +:+ "A fine post")
  /\ length (LinkedInDirect.prompts out.2) = 1
  /\ LinkedInDirect.posts out.2 = [].
Proof.
  cbv zeta.
  rewrite (create_linkedin_post_generates_first Scenario.nothing_set
             Scenario.accepts_direct_posts
             (Scenario.writes "A fine post") "AI" "A fine post"
             (Some LinkedInDirect.casual) None None
             {| LinkedInDirect.prompts := []; LinkedInDirect.posts := [] |}
             ltac:(vm_compute; reflexivity) ltac:(reflexivity)).
  repeat split.
Defined.



(** ** More on the email tool *)

(** X20.  [send_email] treats an empty [cc] or [bcc] like a missing one: the
    mail handed to the transport has no such field and the confirmation does
    not mention it. *)
Theorem send_email_ignores_empty_copies
    (env : gmap string string)
    (sendMail : Email.Transporter -> Email.MailOptions -> Completion unit)
    (to subject message : string) (cc bcc : option string) (box : Email.Outbox) :
  Email.emailToolkit_func env sendMail to subject message (Some "") bcc box
  = Email.emailToolkit_func env sendMail to subject message None bcc box
  /\ Email.emailToolkit_func env sendMail to subject message cc (Some "") box
     = Email.emailToolkit_func env sendMail to subject message cc None box.
Proof. split; reflexivity. Qed.

(** X21.  A mail the transport rejects: the legacy [sendEmail] is rejected
    with the transport's error, while [send_email] returns it as a text; both
    have handed the same mail, from [EMAIL_USER], to the transport once. *)
Theorem sendEmail_throws_where_tool_answers
    (env : gmap string string)
    (sendMail : Email.Transporter -> Email.MailOptions -> Completion unit)
    (to subject text : string) (box : Email.Outbox) (error : Error) :
  sendMail (Email.transporter env)
    {| Email.from := env !! "EMAIL_USER"; Email.to := to; Email.subject := subject;
       Email.text := text; Email.cc := None; Email.bcc := None |}
  = Throw error ->
  let mail :=
    {| Email.from := env !! "EMAIL_USER"; Email.to := to; Email.subject := subject;
       Email.text := text; Email.cc := None; Email.bcc := None |} in
  Email.sendEmail env sendMail to subject text box = (Throw error, box ++ [mail])
  /\ Email.emailToolkit_func env sendMail to subject text None None box
     = (Return ("❌ Failed to send email: " +:+ err_message error), box ++ [mail]).
Proof.
  intros Hfail. cbv zeta. split.
  - unfold Email.sendEmail, bind, Email.transporter_sendMail. now rewrite Hfail.
  - rewrite emailToolkit_func_unfold. unfold Email.mailOptions_of. simpl.
    now rewrite Hfail.
Qed.

Lemma sendEmail_throws_where_tool_answers_witness :
  (Email.sendEmail Scenario.nothing_set Scenario.needs_login
     "a@example.com" "Hi" "Hello" []).1
  = Throw (newError "Missing credentials for PLAIN")
  /\ (Email.emailToolkit_func Scenario.nothing_set Scenario.needs_login
        "a@example.com" "Hi" "Hello" None None []).1
     = Return "❌ Failed to send email: Missing credentials for PLAIN".
Proof.
  destruct (sendEmail_throws_where_tool_answers Scenario.nothing_set
              Scenario.needs_login "a@example.com" "Hi" "Hello" []
              (newError "Missing credentials for PLAIN")
              ltac:(vm_compute; reflexivity)) as [H1 H2].
  split; [exact (f_equal fst H1)|exact (f_equal fst H2)].
Defined.

(** ** More on the calculator *)

Section CalculatorMore.
Import Ecma.



End CalculatorMore.





(** Division by zero and arithmetic past the whole numbers, on the sample
    host. *)
Example calculator_arithmetic_samples :
  map Scenario.calculator ["(1+2)*3-4/2"; "-(5-5)/0"; "1/2"; "0-7/0"]
  = map (fun text => Ends (Return text))
      ["Result: 7"; "Result: NaN"; "Result: 0.5"; "Result: -Infinity"].
Proof. vm_compute. reflexivity. Qed.
